(** * LISY platform (System 1 / System 80): a shallow embedding of
      [mpf/platforms/lisy/lisy.py] and the properties of its protocol driver.

    The Python classes become records, the methods become functions in a
    small state-and-exception monad, the transport is an explicit pair of
    byte streams, and the switch cache [_inputs] (a Python dict keyed by
    [str(number)]) is a [gmap string bool]. *)

From Stdlib Require Import ZArith Lia Strings.Byte Floats.
From stdpp Require Import gmap strings list pretty.

Local Open Scope Z_scope.

(** ** Bytes *)

(** [ord(data)] for a one-byte [bytes] object. *)
Definition ord (b : byte) : Z := Z.of_N (Byte.to_N b).

(** One element of [bytes([...])]: an int outside [range(256)] is rejected. *)
Definition byte_of_int (z : Z) : option byte :=
  if bool_decide (0 ≤ z) then Byte.of_N (Z.to_N z) else None.

#[global] Instance byte_eq_decision : EqDecision byte := Byte.byte_eq_dec.

(** ** Exceptions and the method monad *)

Inductive exn : Type :=
  | AssertionError        (* raised by the platform's own checks *)
  | ValueError            (* bytes(): "bytes must be in range(0, 256)" *)
  | OverflowError         (* int / int whose quotient is too large for a float *)
  | IncompleteReadError   (* the reader reached end of stream *)
  | ConnectionError       (* the writer refused the write *)
  | TypeError.            (* an int compared with None *)

Inductive result (A : Type) : Type :=
  | Ok (a : A)
  | Raise (e : exn).
Arguments Ok {A} a.
Arguments Raise {A} e.

(** A method run on state [S]: the state survives an exception, as the
    attributes of a Python object do. *)
Definition M (S A : Type) : Type := S → result A * S.

Definition ret {S A} (a : A) : M S A := λ s, (Ok a, s).
Definition raise {S A} (e : exn) : M S A := λ s, (Raise e, s).
Definition bind {S A B} (c : M S A) (k : A → M S B) : M S B :=
  λ s, match c s with
       | (Ok a, s') => k a s'
       | (Raise e, s') => (Raise e, s')
       end.
Definition get {S} : M S S := λ s, (Ok s, s).
Definition modify {S} (f : S → S) : M S unit := λ s, (Ok tt, f s).

Declare Scope py_scope.
Delimit Scope py_scope with py.
Notation "'let*' x ':=' c 'in' k" := (bind c (λ x, k))
  (at level 10, x name, c at level 100, k at level 200) : py_scope.
Notation "c ';;;' k" := (bind c (λ _, k))
  (at level 100, k at level 200, right associativity) : py_scope.
Local Open Scope py_scope.

(** [for x in xs: body x] *)
Fixpoint for_each {S A} (xs : list A) (body : A → M S unit) : M S unit :=
  match xs with
  | [] => ret tt
  | x :: xs' => body x ;;; for_each xs' body
  end.

(** [range(n)] *)
Definition range (n : nat) : list Z := Z.of_nat <$> seq 0 n.

(** [bytes(ints)] *)
Definition bytes {S} (ints : list Z) : M S (list byte) :=
  match mapM byte_of_int ints with
  | Some bs => ret bs
  | None => raise ValueError
  end.

(** [int(a / 256)]: true division followed by truncation towards zero.  The
    quotient is exact below 2^53; above, the float keeps 53 significant bits,
    so its integer part is no longer [a ÷ 256] but is still at least 2^45 in
    magnitude, which is all [bytes] looks at.  A quotient that rounds to
    2^1024 or more raises OverflowError. *)
Definition int_truediv_256 {S} (a : Z) : M S Z :=
  if bool_decide (2 ^ 1032 - 2 ^ 978 ≤ Z.abs a) then raise OverflowError
  else ret (a ÷ 256).

(** [str(n)] for an int. *)
Definition str (n : Z) : string := pretty n.

(** ** LisyDefines *)

(** The command table [mpf.platforms.lisy.defines.LisyDefines]; each code is
    a single byte.  Only the codes this module uses are listed. *)
Record LisyDefines : Type := {
  InfoGetConnectedLisyHardware : byte;
  InfoGetNumberOfLamps : byte;
  InfoGetNumberOfSolenoids : byte;
  InfoGetNumberOfDisplays : byte;
  LampsSetLampOn : byte;
  LampsSetLampOff : byte;
  SolenoidsSetSolenoidToOn : byte;
  SolenoidsSetSolenoidToOff : byte;
  SolenoidsPulseSolenioid : byte;
  SolenoidsSetSolenoidPulseTime : byte;
  DisplaysSetDisplay0To : byte;
  SwitchesGetStatusOfSwitch : byte;
  SwitchesGetChangedSwitches : byte;
  GeneralReset : byte
}.

(** A command table to evaluate the model on concrete inputs. *)
Definition lisy_defines : LisyDefines := {|
  InfoGetConnectedLisyHardware := x00;
  InfoGetNumberOfLamps := x03;
  InfoGetNumberOfSolenoids := x04;
  InfoGetNumberOfDisplays := x06;
  LampsSetLampOn := x0b;
  LampsSetLampOff := x0c;
  SolenoidsSetSolenoidToOn := x15;
  SolenoidsSetSolenoidToOff := x16;
  SolenoidsPulseSolenioid := x17;
  SolenoidsSetSolenoidPulseTime := x18;
  DisplaysSetDisplay0To := x1e;
  SwitchesGetStatusOfSwitch := x28;
  SwitchesGetChangedSwitches := x29;
  GeneralReset := x64
|}.

(** ** The platform object *)

(** [LisyHardwarePlatform], together with the two ends of its connection and
    the parts of [machine] it talks to.
    - [_reader] is the bytes the controller will still deliver;
    - [_writer] is the chunks handed to [writer.write], oldest first;
    - [_writer_faults] says, for the coming writes in turn, which of them the
      transport refuses ([true]); beyond the list every write is accepted;
    - [switch_events] is the calls made to
      [machine.switch_controller.process_switch_by_num], oldest first, each
      with the identity of the platform passed as its third argument;
    - [sleeps] counts the calls of [asyncio.sleep(.001)]. *)
Record LisyHardwarePlatform : Type := {
  platform_id : nat;
  _reader : list byte;
  _writer : list (list byte);
  _writer_faults : list bool;
  _poll_task : bool;
  _number_of_lamps : option Z;
  _number_of_solenoids : option Z;
  _number_of_displays : option Z;
  _inputs : gmap string bool;
  _system_type : option Z;
  switch_events : list (string * Z * nat);
  sleeps : nat
}.

(** [LisyHardwarePlatform.__init__], on a connection whose controller will
    deliver [incoming] and whose writer follows [faults]. *)
Definition new_platform (id : nat) (incoming : list byte) (faults : list bool)
    : LisyHardwarePlatform := {|
  platform_id := id;
  _reader := incoming;
  _writer := [];
  _writer_faults := faults;
  _poll_task := false;
  _number_of_lamps := None;
  _number_of_solenoids := None;
  _number_of_displays := None;
  _inputs := ∅;
  _system_type := None;
  switch_events := [];
  sleeps := 0
|}.

Definition set_reader (r : list byte) (p : LisyHardwarePlatform) :=
  {| platform_id := platform_id p; _reader := r; _writer := _writer p;
     _writer_faults := _writer_faults p; _poll_task := _poll_task p;
     _number_of_lamps := _number_of_lamps p;
     _number_of_solenoids := _number_of_solenoids p;
     _number_of_displays := _number_of_displays p; _inputs := _inputs p;
     _system_type := _system_type p; switch_events := switch_events p;
     sleeps := sleeps p |}.

Definition set_writer (w : list (list byte)) (f : list bool) (p : LisyHardwarePlatform) :=
  {| platform_id := platform_id p; _reader := _reader p; _writer := w;
     _writer_faults := f; _poll_task := _poll_task p;
     _number_of_lamps := _number_of_lamps p;
     _number_of_solenoids := _number_of_solenoids p;
     _number_of_displays := _number_of_displays p; _inputs := _inputs p;
     _system_type := _system_type p; switch_events := switch_events p;
     sleeps := sleeps p |}.

Definition set_poll_task (b : bool) (p : LisyHardwarePlatform) :=
  {| platform_id := platform_id p; _reader := _reader p; _writer := _writer p;
     _writer_faults := _writer_faults p; _poll_task := b;
     _number_of_lamps := _number_of_lamps p;
     _number_of_solenoids := _number_of_solenoids p;
     _number_of_displays := _number_of_displays p; _inputs := _inputs p;
     _system_type := _system_type p; switch_events := switch_events p;
     sleeps := sleeps p |}.

Definition set_number_of_lamps (n : Z) (p : LisyHardwarePlatform) :=
  {| platform_id := platform_id p; _reader := _reader p; _writer := _writer p;
     _writer_faults := _writer_faults p; _poll_task := _poll_task p;
     _number_of_lamps := Some n;
     _number_of_solenoids := _number_of_solenoids p;
     _number_of_displays := _number_of_displays p; _inputs := _inputs p;
     _system_type := _system_type p; switch_events := switch_events p;
     sleeps := sleeps p |}.

Definition set_number_of_solenoids (n : Z) (p : LisyHardwarePlatform) :=
  {| platform_id := platform_id p; _reader := _reader p; _writer := _writer p;
     _writer_faults := _writer_faults p; _poll_task := _poll_task p;
     _number_of_lamps := _number_of_lamps p;
     _number_of_solenoids := Some n;
     _number_of_displays := _number_of_displays p; _inputs := _inputs p;
     _system_type := _system_type p; switch_events := switch_events p;
     sleeps := sleeps p |}.

Definition set_number_of_displays (n : Z) (p : LisyHardwarePlatform) :=
  {| platform_id := platform_id p; _reader := _reader p; _writer := _writer p;
     _writer_faults := _writer_faults p; _poll_task := _poll_task p;
     _number_of_lamps := _number_of_lamps p;
     _number_of_solenoids := _number_of_solenoids p;
     _number_of_displays := Some n; _inputs := _inputs p;
     _system_type := _system_type p; switch_events := switch_events p;
     sleeps := sleeps p |}.

Definition set_inputs (m : gmap string bool) (p : LisyHardwarePlatform) :=
  {| platform_id := platform_id p; _reader := _reader p; _writer := _writer p;
     _writer_faults := _writer_faults p; _poll_task := _poll_task p;
     _number_of_lamps := _number_of_lamps p;
     _number_of_solenoids := _number_of_solenoids p;
     _number_of_displays := _number_of_displays p; _inputs := m;
     _system_type := _system_type p; switch_events := switch_events p;
     sleeps := sleeps p |}.

Definition set_system_type (t : Z) (p : LisyHardwarePlatform) :=
  {| platform_id := platform_id p; _reader := _reader p; _writer := _writer p;
     _writer_faults := _writer_faults p; _poll_task := _poll_task p;
     _number_of_lamps := _number_of_lamps p;
     _number_of_solenoids := _number_of_solenoids p;
     _number_of_displays := _number_of_displays p; _inputs := _inputs p;
     _system_type := Some t; switch_events := switch_events p;
     sleeps := sleeps p |}.

Definition set_switch_events (e : list (string * Z * nat)) (p : LisyHardwarePlatform) :=
  {| platform_id := platform_id p; _reader := _reader p; _writer := _writer p;
     _writer_faults := _writer_faults p; _poll_task := _poll_task p;
     _number_of_lamps := _number_of_lamps p;
     _number_of_solenoids := _number_of_solenoids p;
     _number_of_displays := _number_of_displays p; _inputs := _inputs p;
     _system_type := _system_type p; switch_events := e;
     sleeps := sleeps p |}.

Definition set_sleeps (n : nat) (p : LisyHardwarePlatform) :=
  {| platform_id := platform_id p; _reader := _reader p; _writer := _writer p;
     _writer_faults := _writer_faults p; _poll_task := _poll_task p;
     _number_of_lamps := _number_of_lamps p;
     _number_of_solenoids := _number_of_solenoids p;
     _number_of_displays := _number_of_displays p; _inputs := _inputs p;
     _system_type := _system_type p; switch_events := switch_events p;
     sleeps := n |}.

(** ** The stream ends *)

(** [self._writer.write(data)] *)
Definition writer_write (data : list byte) : M LisyHardwarePlatform unit :=
  λ p, match _writer_faults p with
       | true :: f => (Raise ConnectionError, set_writer (_writer p) f p)
       | false :: f => (Ok tt, set_writer (_writer p ++ [data]) f p)
       | [] => (Ok tt, set_writer (_writer p ++ [data]) [] p)
       end.

(** [self._reader.readexactly(1)] *)
Definition reader_readexactly_1 : M LisyHardwarePlatform byte :=
  λ p, match _reader p with
       | b :: r => (Ok b, set_reader r p)
       | [] => (Raise IncompleteReadError, p)
       end.

(** Splits a stream after its first zero byte: the bytes up to and including
    it, and what follows. *)
Fixpoint split_after_zero (r : list byte) : option (list byte * list byte) :=
  match r with
  | [] => None
  | b :: r' =>
      if bool_decide (b = x00) then Some ([b], r')
      else match split_after_zero r' with
           | Some (d, rest) => Some (b :: d, rest)
           | None => None
           end
  end.

(** [self._reader.readuntil(b'\x00')]; at end of stream the buffered bytes
    are dropped with the exception. *)
Definition reader_readuntil_zero : M LisyHardwarePlatform (list byte) :=
  λ p, match split_after_zero (_reader p) with
       | Some (d, rest) => (Ok d, set_reader rest p)
       | None => (Raise IncompleteReadError, set_reader [] p)
       end.

(** [data[:-1]] *)
Definition drop_last {A} (l : list A) : list A := take (length l - 1)%nat l.

(** ** The protocol codec *)

(** [send_byte(cmd, byte=None)] *)
Definition send_byte (cmd : byte) (byte : option (list byte))
    : M LisyHardwarePlatform unit :=
  match byte with
  | Some payload =>
      let cmd_str := [cmd] in
      let cmd_str := cmd_str ++ payload in
      writer_write cmd_str
  | None => writer_write [cmd]
  end.

(** [read_byte()] *)
Definition read_byte : M LisyHardwarePlatform Z :=
  let* data := reader_readexactly_1 in
  ret (ord data).

(** [read_string()] *)
Definition read_string : M LisyHardwarePlatform (list byte) :=
  let* data := reader_readuntil_zero in
  let data := drop_last data in
  ret data.

(** ** Device handles *)

(** [LisySwitch]: the number it was configured with. *)
Record LisySwitch : Type := { switch_number : Z }.

(** [LisyDriver].  [number] is the value of [int(self.number)]; [_pulse_ms]
    is the pulse time last configured, -1 at creation. *)
Record LisyDriver : Type := { number : Z; _pulse_ms : Z }.

(** [LisyLight] and [LisyDisplay]: index only. *)
Record LisyLight : Type := { light_number : Z }.
Record LisyDisplay : Type := { display_number : Z }.

(** ** Settings passed by the host *)

(** [PulseSettings]; this platform reads only [duration]. *)
Record PulseSettings : Type := { duration : Z }.

(** [HoldSettings]; this platform reads none of it. *)
Record HoldSettings : Type := { hold_power : Z }.

(** [SwitchSettings] and [DriverSettings], the arguments of the hardware
    rules. *)
Record SwitchSettings : Type :=
  { hw_switch : LisySwitch; invert : bool; debounce : bool }.
Record DriverSettings : Type :=
  { hw_driver : LisyDriver; pulse_settings : PulseSettings;
    hold_settings : option HoldSettings; recycle : bool }.

(** [LisyDriver.__init__] *)
Definition new_driver (number : Z) : LisyDriver :=
  {| number := number; _pulse_ms := -1 |}.

Definition set_pulse_ms (ms : Z) (d : LisyDriver) : LisyDriver :=
  {| number := number d; _pulse_ms := ms |}.

(** A driver method runs on the driver and on the platform it refers to. *)
Definition on_driver {A} (c : M LisyDriver A) : M (LisyDriver * LisyHardwarePlatform) A :=
  λ s, let '(r, d) := c s.1 in (r, (d, s.2)).
Definition on_platform {A} (c : M LisyHardwarePlatform A)
    : M (LisyDriver * LisyHardwarePlatform) A :=
  λ s, let '(r, p) := c s.2 in (r, (s.1, p)).

Section Lisy.

Variable D : LisyDefines.

(** [LisyDriver._configure_pulse_ms(pulse_ms)] *)
Definition _configure_pulse_ms (pulse_ms : Z) : M (LisyDriver * LisyHardwarePlatform) unit :=
  let* self := get in
  if bool_decide (pulse_ms ≠ _pulse_ms self.1) then
    on_driver (modify (set_pulse_ms pulse_ms)) ;;;
    let* hi := int_truediv_256 pulse_ms in
    let* payload := bytes [number self.1; hi; pulse_ms `mod` 256] in
    on_platform (send_byte (SolenoidsSetSolenoidPulseTime D) (Some payload))
  else ret tt.

(** [LisyDriver.pulse(pulse_settings)] *)
Definition pulse (pulse_settings : PulseSettings) : M (LisyDriver * LisyHardwarePlatform) unit :=
  _configure_pulse_ms (duration pulse_settings) ;;;
  let* self := get in
  let* payload := bytes [number self.1] in
  on_platform (send_byte (SolenoidsPulseSolenioid D) (Some payload)).

(** [LisyDriver.enable(pulse_settings, hold_settings)] *)
Definition enable (pulse_settings : PulseSettings) (hold_settings : HoldSettings)
    : M (LisyDriver * LisyHardwarePlatform) unit :=
  _configure_pulse_ms (duration pulse_settings) ;;;
  let* self := get in
  let* payload := bytes [number self.1] in
  on_platform (send_byte (SolenoidsSetSolenoidToOn D) (Some payload)).

(** [LisyDriver.disable()] *)
Definition disable : M (LisyDriver * LisyHardwarePlatform) unit :=
  let* self := get in
  let* payload := bytes [number self.1] in
  on_platform (send_byte (SolenoidsSetSolenoidToOff D) (Some payload)).

(** ** The initialization sequence *)

(** [b'LISY1'] and [b'LISY80'] *)
Definition LISY1 : list byte := [x4c; x49; x53; x59; x31].
Definition LISY80 : list byte := [x4c; x49; x53; x59; x38; x30].

(** [initialize], "reset platform" *)
Definition initialize_reset : M LisyHardwarePlatform unit :=
  send_byte (GeneralReset D) None ;;;
  let* return_code := read_byte in
  if bool_decide (return_code ≠ 0) then raise AssertionError else ret tt.

(** [initialize], "get type (system 1 vs system 80)" *)
Definition initialize_identify : M LisyHardwarePlatform unit :=
  send_byte (InfoGetConnectedLisyHardware D) None ;;;
  let* type_str := read_string in
  if bool_decide (type_str = LISY1) then modify (set_system_type 1)
  else if bool_decide (type_str = LISY80) then modify (set_system_type 80)
  else raise AssertionError.

(** [initialize], "get number of lamps / solenoids / displays" *)
Definition initialize_capacities : M LisyHardwarePlatform unit :=
  send_byte (InfoGetNumberOfLamps D) None ;;;
  let* n := read_byte in
  modify (set_number_of_lamps n) ;;;
  send_byte (InfoGetNumberOfSolenoids D) None ;;;
  let* n := read_byte in
  modify (set_number_of_solenoids n) ;;;
  send_byte (InfoGetNumberOfDisplays D) None ;;;
  let* n := read_byte in
  modify (set_number_of_displays n).

(** The body of the two loops of "initially read all switches", after
    [number] is computed. *)
Definition initialize_switch (number : Z) : M LisyHardwarePlatform unit :=
  let* payload := bytes [number] in
  send_byte (SwitchesGetStatusOfSwitch D) (Some payload) ;;;
  let* state := read_byte in
  if bool_decide (state > 1) then raise AssertionError
  else modify (λ p, set_inputs (<[str number := bool_decide (state = 1)]> (_inputs p)) p).

(** [initialize], "initially read all switches" *)
Definition initialize_switches : M LisyHardwarePlatform unit :=
  for_each (range 8) (λ row,
    for_each (range 8) (λ col,
      let number := row * 10 + col in
      initialize_switch number)).

(** [initialize], from the point where the connection is open. *)
Definition initialize : M LisyHardwarePlatform unit :=
  initialize_reset ;;;
  initialize_identify ;;;
  initialize_capacities ;;;
  initialize_switches ;;;
  modify (set_poll_task true).

(** ** The poll loop *)

(** One turn of the [while True] loop of [_poll]. *)
Definition _poll_cycle : M LisyHardwarePlatform unit :=
  send_byte (SwitchesGetChangedSwitches D) None ;;;
  let* status := read_byte in
  if bool_decide (status = 127) then
    modify (λ p, set_sleeps (S (sleeps p)) p)
  else
    let switch_state := if bool_decide (Z.land status 128 ≠ 0) then 1 else 0 in
    let switch_num := Z.land status 127 in
    modify (λ p, set_switch_events
                   (switch_events p ++ [(str switch_num, switch_state, platform_id p)]) p) ;;;
    modify (λ p, set_inputs
                   (<[str switch_num := bool_decide (switch_state ≠ 0)]> (_inputs p)) p).

(** [_poll], cut after [turns] turns of its loop; an exception ends it. *)
Fixpoint _poll (turns : nat) : M LisyHardwarePlatform unit :=
  match turns with
  | O => ret tt
  | S n => _poll_cycle ;;; _poll n
  end.

(** ** Hardware rules *)

Definition set_pulse_on_hit_and_enable_and_release_rule
    (enable_switch : SwitchSettings) (coil : DriverSettings)
    : M LisyHardwarePlatform unit :=
  raise AssertionError.

Definition set_pulse_on_hit_and_enable_and_release_and_disable_rule
    (enable_switch disable_switch : SwitchSettings) (coil : DriverSettings)
    : M LisyHardwarePlatform unit :=
  raise AssertionError.

Definition set_pulse_on_hit_and_release_rule
    (enable_switch : SwitchSettings) (coil : DriverSettings)
    : M LisyHardwarePlatform unit :=
  raise AssertionError.

Definition set_pulse_on_hit_rule
    (enable_switch : SwitchSettings) (coil : DriverSettings)
    : M LisyHardwarePlatform unit :=
  raise AssertionError.

Definition clear_hw_rule (switch : SwitchSettings) (coil : DriverSettings)
    : M LisyHardwarePlatform unit :=
  raise AssertionError.

(** ** Configuration of devices *)

(** [a < n and rest]: the second comparison of a chained comparison is
    evaluated only when the first holds. *)
Definition and_then {S} (first : bool) (second : M S bool) : M S bool :=
  if first then second else ret false.

(** [n >= c] and [n > c] for a count [c] that is [None] until the handshake
    has read it. *)
Definition ge_count {S} (n : Z) (c : option Z) : M S bool :=
  match c with
  | Some c => ret (bool_decide (n >= c))
  | None => raise TypeError
  end.
Definition gt_count {S} (n : Z) (c : option Z) : M S bool :=
  match c with
  | Some c => ret (bool_decide (n > c))
  | None => raise TypeError
  end.

(** [configure_light(number, subtype, platform_settings)], [number] being the
    value of [int(number)]. *)
Definition configure_light (number : Z) : M LisyHardwarePlatform LisyLight :=
  let* self := get in
  (if bool_decide (_system_type self = Some 80) then
     let* bad := and_then (bool_decide (0 < number))
                          (ge_count number (_number_of_lamps self)) in
     if bad then raise AssertionError else ret tt
   else
     let* bad := and_then (bool_decide (1 < number))
                          (gt_count number (_number_of_lamps self)) in
     if bad then raise AssertionError else ret tt) ;;;
  ret {| light_number := number |}.

(** [configure_switch(number, config, platform_config)] *)
Definition configure_switch (number : Z) : M LisyHardwarePlatform LisySwitch :=
  if bool_decide (number `mod` 10 > 7 ∨ (0 < number ∧ number > 77))
  then raise AssertionError
  else ret {| switch_number := number |}.

(** [get_hw_switch_states()] *)
Definition get_hw_switch_states : M LisyHardwarePlatform (gmap string bool) :=
  let* self := get in ret (_inputs self).


(** [configure_segment_display(number)] *)
Definition configure_segment_display (number : Z) : M LisyHardwarePlatform LisyDisplay :=
  let* self := get in
  (let* bad := and_then (bool_decide (0 < number))
                        (ge_count number (_number_of_displays self)) in
   if bad then raise AssertionError else ret tt) ;;;
  ret {| display_number := number |}.

End Lisy.

(** ** Lights and displays *)

(** One code point in UTF-8. *)
Definition utf8_char (c : Z) : list Z :=
  if bool_decide (c < 128) then [c]
  else if bool_decide (c < 2048) then [192 + c `div` 64; 128 + c `mod` 64]
  else if bool_decide (c < 65536) then
    [224 + c `div` 4096; 128 + (c `div` 64) `mod` 64; 128 + c `mod` 64]
  else
    [240 + c `div` 262144; 128 + (c `div` 4096) `mod` 64;
     128 + (c `div` 64) `mod` 64; 128 + c `mod` 64].


(** [string.encode()]: UTF-8 with [errors='strict']; a surrogate code point
    raises UnicodeEncodeError, which is a ValueError. *)
Definition encode {S} (string : list Z) : M S (list byte) :=
  if bool_decide (Exists (λ c, 55296 ≤ c ≤ 57343) string) then raise ValueError
  else bytes (string ≫= utf8_char).

(** [send_string(cmd, string)] *)
Definition send_string (cmd : Z) (string : list Z) : M LisyHardwarePlatform unit :=
  let* c := bytes [cmd] in
  let* e := encode string in
  let* z := bytes [0] in
  writer_write (c ++ e ++ z).

Section LisyDevices.

Variable D : LisyDefines.

(** [LisyLight.set_brightness(brightness)]; [brightness > 0] compares a
    float with the int 0. *)
Definition set_brightness (self : LisyLight) (brightness : float)
    : M LisyHardwarePlatform unit :=
  if PrimFloat.ltb 0%float brightness then
    let* payload := bytes [light_number self] in
    send_byte (LampsSetLampOn D) (Some payload)
  else
    let* payload := bytes [light_number self] in
    send_byte (LampsSetLampOff D) (Some payload).

(** [LisyDisplay.set_text(text)] *)
Definition set_text (self : LisyDisplay) (text : list Z) : M LisyHardwarePlatform unit :=
  send_string (ord (DisplaysSetDisplay0To D) + display_number self) text.

End LisyDevices.

(** [initialize] up to the creation of the poll task. *)
Definition handshake (D : LisyDefines) : M LisyHardwarePlatform unit :=
  initialize_reset D ;;;
  initialize_identify D ;;;
  initialize_capacities D ;;;
  initialize_switches D.

(** A call on a driver handle, [disable] included. *)
Inductive driver_op : Type :=
  | OpPulse (ps : PulseSettings)
  | OpEnable (ps : PulseSettings) (hs : HoldSettings)
  | OpDisable.

Definition run_op (D : LisyDefines) (o : driver_op)
    : M (LisyDriver * LisyHardwarePlatform) unit :=
  match o with
  | OpPulse ps => pulse D ps
  | OpEnable ps hs => enable D ps hs
  | OpDisable => disable D
  end.

(** The event a poll cycle reports for the status byte [b] on platform [id]. *)
Definition status_event (id : nat) (b : byte) : string * Z * nat :=
  (str (Z.land (ord b) 127), Z.land (Z.shiftr (ord b) 7) 1, id).

(** The status bytes that report a change. *)
Definition changes (bs : list byte) : list byte :=
  filter (λ b, ord b ≠ 127) bs.

(** The state of the last event reported for the address [a]. *)
Definition last_state (a : string) (events : list (string * Z * nat)) : option Z :=
  (λ e, e.1.2) <$> last (filter (λ e, e.1.1 = a) events).

(** The cache holds, for every address an event was reported for, the state
    of the last such event. *)
Definition cache_follows_events (p : LisyHardwarePlatform) : Prop :=
  ∀ a st, last_state a (switch_events p) = Some st →
          _inputs p !! a = Some (bool_decide (st ≠ 0)).

(** ** What the protocol document says is sent *)

(** The byte with value [z], for [z] in [range(256)]. *)
Definition to_byte (z : Z) : byte := default x00 (byte_of_int z).

(** "set pulse time with payload [duration div 256, duration mod 256]",
    preceded by the solenoid address. *)
Definition pulse_time_command (D : LisyDefines) (n d : Z) : list byte :=
  [SolenoidsSetSolenoidPulseTime D; to_byte n; to_byte (d `div` 256); to_byte (d `mod` 256)].

(** A call of [pulse] or of [enable] on a driver handle. *)
Inductive driver_call : Type :=
  | CallPulse (ps : PulseSettings)
  | CallEnable (ps : PulseSettings) (hs : HoldSettings).

Definition call_duration (c : driver_call) : Z :=
  match c with
  | CallPulse ps => duration ps
  | CallEnable ps _ => duration ps
  end.

Definition run_call (D : LisyDefines) (c : driver_call)
    : M (LisyDriver * LisyHardwarePlatform) unit :=
  match c with
  | CallPulse ps => pulse D ps
  | CallEnable ps hs => enable D ps hs
  end.

(** "pulse with the solenoid address", "set to on". *)
Definition action_command (D : LisyDefines) (n : Z) (c : driver_call) : list byte :=
  match c with
  | CallPulse _ => [SolenoidsPulseSolenioid D; to_byte n]
  | CallEnable _ _ => [SolenoidsSetSolenoidToOn D; to_byte n]
  end.

(** The duration of the last call of a sequence, -1 when there was none. *)
Definition last_duration (cs : list driver_call) : Z :=
  default (-1) (last (call_duration <$> cs)).

(** A count the handshake has read. *)
Definition count_of (c : option Z) : Z := default 0 c.

(** The transport accepts every coming write. *)
Definition accepts_writes (p : LisyHardwarePlatform) : Prop :=
  Forall (λ f, f = false) (_writer_faults p).

(** The addresses {row*10+col : row in [0,7], col in [0,7]}, row by row. *)
Definition switch_addresses : list Z :=
  row ← range 8; col ← range 8; [row * 10 + col].

(** The query of the status of one switch. *)
Definition switch_query (D : LisyDefines) (a : Z) : list byte :=
  [SwitchesGetStatusOfSwitch D; to_byte a].

(** The cache [m] after the answers [resp] to the queries of [addrs] were
    stored, each as the boolean "the answer is 1". *)
Definition store_switches (addrs : list Z) (resp : list byte) (m : gmap string bool)
    : gmap string bool :=
  foldl (λ m ab, <[str ab.1 := bool_decide (ord ab.2 = 1)]> m) m (zip addrs resp).

(** Every key of the cache is the decimal string of an address that
    satisfies [P]. *)
Definition keys_in (P : Z → Prop) (p : LisyHardwarePlatform) : Prop :=
  ∀ k, is_Some (_inputs p !! k) → ∃ a, k = str a ∧ P a.

(** A method keeps an invariant of the state, whether it returns or raises. *)
Definition preserves {S A} (I : S → Prop) (c : M S A) : Prop :=
  ∀ s, I s → I (c s).2.

(** * Properties *)

(** ** Bytes *)

Lemma ord_range b : 0 ≤ ord b < 256.
Proof.
  unfold ord. pose proof (Byte.to_N_bounded b) as H.
  apply N2Z.inj_le in H. change (Z.of_N 255) with 255 in H. lia.
Qed.

Lemma byte_of_int_ord b : byte_of_int (ord b) = Some b.
Proof.
  unfold byte_of_int, ord. rewrite bool_decide_eq_true_2 by lia.
  rewrite N2Z.id. apply Byte.of_to_N.
Qed.

Lemma byte_of_int_Some z b : byte_of_int z = Some b → ord b = z.
Proof.
  unfold byte_of_int, ord. case_bool_decide; [|done].
  intros E%Byte.to_of_N. rewrite E. lia.
Qed.

Lemma byte_of_int_to_byte z : 0 ≤ z < 256 → byte_of_int z = Some (to_byte z).
Proof.
  intros Hz. unfold to_byte.
  destruct (byte_of_int z) as [b|] eqn:E; [done|].
  exfalso. unfold byte_of_int in E. rewrite bool_decide_eq_true_2 in E by lia.
  apply Byte.of_N_None_iff in E. lia.
Qed.

Lemma ord_to_byte z : 0 ≤ z < 256 → ord (to_byte z) = z.
Proof. intros Hz. apply byte_of_int_Some, byte_of_int_to_byte, Hz. Qed.

Lemma byte_of_int_None z : ¬ (0 ≤ z < 256) → byte_of_int z = None.
Proof.
  intros Hz. destruct (byte_of_int z) as [b|] eqn:E; [|done].
  apply byte_of_int_Some in E. pose proof (ord_range b). lia.
Qed.

Lemma to_byte_ord b : to_byte (ord b) = b.
Proof. unfold to_byte. by rewrite byte_of_int_ord. Qed.

(** ** The method monad *)

Lemma bind_Ok {S A B} (c : M S A) (k : A → M S B) s a s' :
  c s = (Ok a, s') → bind c k s = k a s'.
Proof. unfold bind. by intros ->. Qed.

Lemma bind_Raise {S A B} (c : M S A) (k : A → M S B) s e s' :
  c s = (Raise e, s') → bind c k s = (Raise e, s').
Proof. unfold bind. by intros ->. Qed.

Lemma for_each_app {S A} (xs ys : list A) (body : A → M S unit) s :
  for_each (xs ++ ys) body s = (for_each xs body ;;; for_each ys body) s.
Proof.
  revert s. induction xs as [|x xs IH]; intros s; simpl.
  - done.
  - unfold bind. destruct (body x s) as [[[]|e] s1]; [|done].
    rewrite IH. done.
Qed.

(** ** The writer *)

Lemma writer_write_accepted data p :
  head (_writer_faults p) ≠ Some true →
  writer_write data p
  = (Ok tt, set_writer (_writer p ++ [data]) (tail (_writer_faults p)) p).
Proof.
  unfold writer_write. destruct (_writer_faults p) as [|[] f]; simpl; done.
Qed.

Lemma writer_write_refused data p f :
  _writer_faults p = true :: f →
  writer_write data p = (Raise ConnectionError, set_writer (_writer p) f p).
Proof. unfold writer_write. by intros ->. Qed.

Lemma accepts_writes_head p : accepts_writes p → head (_writer_faults p) ≠ Some true.
Proof.
  unfold accepts_writes. destruct (_writer_faults p) as [|b f]; simpl; [done|].
  intros H. apply Forall_cons_1 in H as [-> _]. done.
Qed.

Lemma accepts_writes_set_writer w p :
  accepts_writes p → accepts_writes (set_writer w (tail (_writer_faults p)) p).
Proof.
  unfold accepts_writes. simpl. destruct (_writer_faults p); simpl; [done|].
  intros H. by apply Forall_cons_1 in H as [_ H].
Qed.

(** ** The driver handle *)

Lemma int_truediv_256_exact {S} (d : Z) (s : S) :
  0 ≤ d < 65536 → int_truediv_256 d s = (Ok (d `div` 256), s).
Proof.
  intros Hd. unfold int_truediv_256.
  assert (65536 ≤ 2 ^ 1032 - 2 ^ 978) as Hbig by (by vm_compute).
  rewrite bool_decide_eq_false_2.
  - by rewrite Z.quot_div_nonneg by lia.
  - revert Hbig. generalize (2 ^ 1032 - 2 ^ 978). lia.
Qed.

Lemma bytes_pulse_time {S} (n d : Z) (s : S) :
  0 ≤ n < 256 → 0 ≤ d < 65536 →
  bytes [n; d `div` 256; d `mod` 256] s
  = (Ok [to_byte n; to_byte (d `div` 256); to_byte (d `mod` 256)], s).
Proof.
  intros Hn Hd. unfold bytes. simpl.
  assert (0 ≤ d `div` 256 < 256) as Hhi
    by (split; [apply Z.div_pos; lia | apply Z.div_lt_upper_bound; lia]).
  assert (0 ≤ d `mod` 256 < 256) as Hlo by (apply Z.mod_pos_bound; lia).
  rewrite !byte_of_int_to_byte by done. done.
Qed.

Lemma bytes_address {S} (n : Z) (s : S) :
  0 ≤ n < 256 → bytes [n] s = (Ok [to_byte n], s).
Proof. intros Hn. unfold bytes. simpl. by rewrite byte_of_int_to_byte. Qed.

Section Driver.

Variable D : LisyDefines.

Lemma configure_pulse_ms_same drv p d :
  d = _pulse_ms drv → _configure_pulse_ms D d (drv, p) = (Ok tt, (drv, p)).
Proof.
  intros ->. unfold _configure_pulse_ms, bind, get; simpl.
  by rewrite bool_decide_eq_false_2 by (intros H; by apply H).
Qed.

Lemma configure_pulse_ms_changed drv p d :
  0 ≤ number drv < 256 → 0 ≤ d < 65536 → d ≠ _pulse_ms drv →
  head (_writer_faults p) ≠ Some true →
  _configure_pulse_ms D d (drv, p)
  = (Ok tt, (set_pulse_ms d drv,
             set_writer (_writer p ++ [pulse_time_command D (number drv) d])
                        (tail (_writer_faults p)) p)).
Proof.
  intros Hn Hd Hne Hw. unfold _configure_pulse_ms, bind, get; simpl.
  rewrite bool_decide_eq_true_2 by done.
  unfold on_driver, modify; simpl.
  rewrite int_truediv_256_exact by done.
  rewrite bytes_pulse_time by done.
  unfold on_platform, send_byte; simpl.
  by rewrite writer_write_accepted by done.
Qed.

Lemma configure_pulse_ms_refused drv p d f :
  0 ≤ number drv < 256 → 0 ≤ d < 65536 → d ≠ _pulse_ms drv →
  _writer_faults p = true :: f →
  _configure_pulse_ms D d (drv, p)
  = (Raise ConnectionError, (set_pulse_ms d drv, set_writer (_writer p) f p)).
Proof.
  intros Hn Hd Hne Hw. unfold _configure_pulse_ms, bind, get; simpl.
  rewrite bool_decide_eq_true_2 by done.
  unfold on_driver, modify; simpl.
  rewrite int_truediv_256_exact by done.
  rewrite bytes_pulse_time by done.
  unfold on_platform, send_byte; simpl.
  by rewrite (writer_write_refused _ _ f) by done.
Qed.

(** One call, from any state of the handle: the pulse time is sent when it
    changed, then the action. *)
Lemma run_call_writes c drv p :
  0 ≤ number drv < 256 → 0 ≤ call_duration c < 65536 → accepts_writes p →
  ∃ p',
    run_call D c (drv, p) = (Ok tt, (set_pulse_ms (call_duration c) drv, p')) ∧
    accepts_writes p' ∧
    _writer p' = _writer p
      ++ (if bool_decide (call_duration c ≠ _pulse_ms drv)
          then [pulse_time_command D (number drv) (call_duration c)] else [])
      ++ [action_command D (number drv) c].
Proof.
  intros Hn Hd Hp.
  pose proof (accepts_writes_head _ Hp) as Hh.
  destruct (decide (call_duration c = _pulse_ms drv)) as [Heq|Hne].
  - rewrite bool_decide_eq_false_2 by (intros H; by apply H).
    exists (set_writer (_writer p ++ [action_command D (number drv) c])
                       (tail (_writer_faults p)) p).
    split; [|split].
    + destruct c as [ps|ps hs]; simpl in *; unfold pulse, enable;
        (erewrite bind_Ok by (by apply configure_pulse_ms_same));
        unfold bind, get; simpl; rewrite bytes_address by done;
        unfold on_platform, send_byte; simpl;
        rewrite writer_write_accepted by done; simpl;
        rewrite Heq; destruct drv; reflexivity.
    + by apply accepts_writes_set_writer.
    + reflexivity.
  - rewrite bool_decide_eq_true_2 by done.
    pose proof (accepts_writes_set_writer
                  (_writer p ++ [pulse_time_command D (number drv) (call_duration c)])
                  p Hp) as Hp1.
    pose proof (accepts_writes_head _ Hp1) as Hh1.
    set (p1 := set_writer (_writer p ++ [pulse_time_command D (number drv) (call_duration c)])
                          (tail (_writer_faults p)) p) in *.
    exists (set_writer (_writer p1 ++ [action_command D (number drv) c])
                       (tail (_writer_faults p1)) p1).
    split; [|split].
    + destruct c as [ps|ps hs]; simpl in *; unfold pulse, enable;
        (erewrite bind_Ok by (by apply configure_pulse_ms_changed));
        unfold bind, get; simpl; rewrite bytes_address by done;
        unfold on_platform, send_byte; simpl;
        rewrite writer_write_accepted by done; simpl; reflexivity.
    + by apply accepts_writes_set_writer.
    + simpl. by rewrite <- app_assoc.
Qed.

End Driver.

Lemma set_pulse_ms_idem a b drv : set_pulse_ms a (set_pulse_ms b drv) = set_pulse_ms a drv.
Proof. reflexivity. Qed.

Lemma set_pulse_ms_same drv : set_pulse_ms (_pulse_ms drv) drv = drv.
Proof. by destruct drv. Qed.

Lemma default_last_cons {A} (x d : A) (l : list A) :
  default x (last (d :: l)) = default d (last l).
Proof.
  destruct l as [|e l]; [done|].
  change (last (d :: e :: l)) with (last (e :: l)).
  destruct (proj2 (last_is_Some (e :: l))) as [y ->]; done.
Qed.

(** After a run of calls the handle stores the duration of the last one. *)
Lemma run_calls_state D cs drv p :
  0 ≤ number drv < 256 →
  Forall (λ c, 0 ≤ call_duration c < 65536) cs →
  accepts_writes p →
  ∃ p',
    for_each cs (run_call D) (drv, p)
    = (Ok tt, (set_pulse_ms (default (_pulse_ms drv) (last (call_duration <$> cs))) drv, p'))
    ∧ accepts_writes p'.
Proof.
  intros Hn Hcs. revert drv p Hn.
  induction Hcs as [|c cs Hc Hcs IH]; intros drv p Hn Hp.
  - exists p. simpl. by rewrite set_pulse_ms_same.
  - destruct (run_call_writes D c drv p Hn Hc Hp) as (p1 & Hrun & Hp1 & _).
    destruct (IH (set_pulse_ms (call_duration c) drv) p1 Hn Hp1) as (p2 & Hrest & Hp2).
    exists p2. split; [|done].
    cbn [for_each]. rewrite (bind_Ok _ _ _ _ _ Hrun), Hrest.
    rewrite fmap_cons, default_last_cons, set_pulse_ms_idem. done.
Qed.

(** C1 (as amended): for every sequence of pulse/enable calls on one solenoid
    handle whose number fits a byte, with durations in 0..65535 and a transport
    that accepts the writes, each call writes the "set pulse time" command
    exactly when its duration differs from the stored one (-1 at first, then
    the duration of the preceding call), then its own command; a repeated
    duration sends the action only; after the call the handle stores the
    requested duration. *)
Theorem pulse_time_sent_iff_changed D n p cs c :
  0 ≤ n < 256 →
  Forall (λ c, 0 ≤ call_duration c < 65536) (cs ++ [c]) →
  accepts_writes p →
  let s := (for_each cs (run_call D) (new_driver n, p)).2 in
  let r := run_call D c s in
  _pulse_ms s.1 = last_duration cs ∧
  r.1 = Ok tt ∧
  _writer r.2.2
  = _writer s.2
    ++ (if bool_decide (call_duration c ≠ last_duration cs)
        then [pulse_time_command D n (call_duration c)] else [])
    ++ [action_command D n c] ∧
  _pulse_ms r.2.1 = call_duration c.
Proof.
  intros Hn Hall Hp. apply Forall_app in Hall as [Hcs Hc].
  apply Forall_cons_1 in Hc as [Hc _].
  destruct (run_calls_state D cs (new_driver n) p Hn Hcs Hp) as (p1 & Hrun & Hp1).
  cbv zeta. rewrite Hrun. cbn [snd fst].
  change (default (_pulse_ms (new_driver n)) (last (call_duration <$> cs)))
    with (last_duration cs).
  set (drv := set_pulse_ms (last_duration cs) (new_driver n)).
  destruct (run_call_writes D c drv p1 Hn Hc Hp1) as (p2 & Hcall & _ & Hw).
  rewrite Hcall. cbn [snd fst]. done.
Qed.

(** C2 (as amended): for every pulse duration d in 0..65535 that differs from
    the stored one, on a handle whose number fits a byte and a transport that
    accepts the write, the "set pulse time" command carries, after the
    solenoid address, the two bytes d div 256 and d mod 256, and
    high * 256 + low gives d back. *)
Theorem pulse_time_payload D drv p d :
  0 ≤ number drv < 256 → 0 ≤ d < 65536 → d ≠ _pulse_ms drv →
  head (_writer_faults p) ≠ Some true →
  ∃ a hi lo,
    _configure_pulse_ms D d (drv, p)
    = (Ok tt, (set_pulse_ms d drv,
               set_writer (_writer p ++ [[SolenoidsSetSolenoidPulseTime D; a; hi; lo]])
                          (tail (_writer_faults p)) p)) ∧
    ord a = number drv ∧
    ord hi = d `div` 256 ∧
    ord lo = d `mod` 256 ∧
    ord hi * 256 + ord lo = d.
Proof.
  intros Hn Hd Hne Hw.
  exists (to_byte (number drv)), (to_byte (d `div` 256)), (to_byte (d `mod` 256)).
  assert (0 ≤ d `div` 256 < 256) as Hhi
    by (split; [apply Z.div_pos; lia | apply Z.div_lt_upper_bound; lia]).
  assert (0 ≤ d `mod` 256 < 256) as Hlo by (apply Z.mod_pos_bound; lia).
  rewrite !ord_to_byte by done.
  split; [by apply configure_pulse_ms_changed|].
  repeat split; try done.
  pose proof (Z.div_mod d 256). lia.
Qed.

(** C10: [_configure_pulse_ms] stores the duration before it writes the
    command.  When the transport refuses that write, the call raises, nothing
    has reached the controller, and the handle already stores the requested
    duration; a later pulse with the same duration, on a transport that works
    again, writes the pulse command alone. *)
Theorem pulse_time_lost_on_write_error D drv p d f :
  0 ≤ number drv < 256 → 0 ≤ d < 65536 → d ≠ _pulse_ms drv →
  _writer_faults p = true :: f →
  Forall (λ b, b = false) f →
  let r := _configure_pulse_ms D d (drv, p) in
  let r' := pulse D {| duration := d |} r.2 in
  r.1 = Raise ConnectionError ∧
  _pulse_ms r.2.1 = d ∧
  _writer r.2.2 = _writer p ∧
  r'.1 = Ok tt ∧
  _writer r'.2.2 = _writer p ++ [[SolenoidsPulseSolenioid D; to_byte (number drv)]].
Proof.
  intros Hn Hd Hne Hw Hf. cbv zeta.
  rewrite (configure_pulse_ms_refused D drv p d f) by done.
  cbn [fst snd].
  assert (accepts_writes (set_writer (_writer p) f p)) as Hp' by exact Hf.
  destruct (run_call_writes D (CallPulse {| duration := d |}) (set_pulse_ms d drv)
              (set_writer (_writer p) f p) Hn Hd Hp') as (p2 & Hcall & _ & Hw2).
  simpl in Hcall. rewrite Hcall. cbn [fst snd].
  repeat split; try done.
  rewrite Hw2. simpl.
  by rewrite bool_decide_eq_false_2 by (intros H; by apply H).
Qed.

(** The duration 65536, which [features['max_pulse']] admits, differs from the
    stored -1, yet [pulse] writes nothing: [bytes] rejects the high byte 256
    after the handle has stored the duration. *)
Lemma pulse_65536_writes_nothing :
  let s := (new_driver 5, new_platform 0 [] []) in
  let r := pulse lisy_defines {| duration := 65536 |} s in
  65536 ≠ _pulse_ms s.1 ∧
  r.1 = Raise ValueError ∧
  _writer r.2.2 = [] ∧
  _pulse_ms r.2.1 = 65536.
Proof. vm_compute. repeat split; done. Qed.

Lemma pulse_time_sent_iff_changed_witness :
  let s := (for_each [CallPulse {| duration := 1000 |};
                      CallEnable {| duration := 1000 |} {| hold_power := 1 |}]
              (run_call lisy_defines) (new_driver 5, new_platform 0 [] [])).2 in
  let r := run_call lisy_defines (CallPulse {| duration := 30 |}) s in
  _pulse_ms s.1 = 1000 ∧
  r.1 = Ok tt ∧
  _writer r.2.2 = _writer s.2 ++ [[x18; x05; x00; x1e]; [x17; x05]] ∧
  _pulse_ms r.2.1 = 30.
Proof.
  apply (pulse_time_sent_iff_changed lisy_defines 5 (new_platform 0 [] [])
           [CallPulse {| duration := 1000 |};
            CallEnable {| duration := 1000 |} {| hold_power := 1 |}]
           (CallPulse {| duration := 30 |})).
  - lia.
  - repeat constructor; simpl; lia.
  - constructor.
Defined.

(** For the duration 65536 no "set pulse time" command is produced at all:
    65536 div 256 is 256, which is no byte. *)
Lemma pulse_time_65536_not_encoded :
  _configure_pulse_ms lisy_defines 65536 (new_driver 5, new_platform 0 [] [])
  = (Raise ValueError, (set_pulse_ms 65536 (new_driver 5), new_platform 0 [] [])).
Proof. vm_compute. reflexivity. Qed.

Lemma pulse_time_payload_witness :
  ∃ a hi lo,
    _configure_pulse_ms lisy_defines 1000 (new_driver 5, new_platform 0 [] [])
    = (Ok tt, (set_pulse_ms 1000 (new_driver 5),
               set_writer [[x18; a; hi; lo]] [] (new_platform 0 [] []))) ∧
    ord a = 5 ∧ ord hi = 3 ∧ ord lo = 232 ∧ ord hi * 256 + ord lo = 1000.
Proof.
  apply (pulse_time_payload lisy_defines (new_driver 5) (new_platform 0 [] []) 1000).
  - simpl. lia.
  - lia.
  - simpl. lia.
  - simpl. discriminate.
Defined.

Lemma pulse_time_lost_on_write_error_witness :
  let p := new_platform 0 [] [true] in
  let r := _configure_pulse_ms lisy_defines 1000 (new_driver 5, p) in
  let r' := pulse lisy_defines {| duration := 1000 |} r.2 in
  r.1 = Raise ConnectionError ∧
  _pulse_ms r.2.1 = 1000 ∧
  _writer r.2.2 = [] ∧
  r'.1 = Ok tt ∧
  _writer r'.2.2 = [[x17; x05]].
Proof.
  apply (pulse_time_lost_on_write_error lisy_defines (new_driver 5)
           (new_platform 0 [] [true]) 1000 []).
  - simpl. lia.
  - lia.
  - simpl. lia.
  - reflexivity.
  - constructor.
Defined.

(** ** The codec on the reader's side *)

Lemma split_after_zero_app s rest :
  x00 ∉ s → split_after_zero (s ++ x00 :: rest) = Some (s ++ [x00], rest).
Proof.
  induction s as [|b s IH]; intros Hs; simpl.
  - done.
  - apply not_elem_of_cons in Hs as [Hb Hs].
    rewrite bool_decide_eq_false_2 by done. by rewrite IH.
Qed.

Lemma drop_last_snoc {A} (l : list A) (x : A) : drop_last (l ++ [x]) = l.
Proof.
  unfold drop_last. rewrite length_app. simpl.
  replace (length l + 1 - 1)%nat with (length l) by lia.
  by rewrite take_app_length.
Qed.

Lemma read_string_terminated p s rest :
  x00 ∉ s → _reader p = s ++ x00 :: rest →
  read_string p = (Ok s, set_reader rest p).
Proof.
  intros Hs Hr. unfold read_string, bind, reader_readuntil_zero.
  rewrite Hr, split_after_zero_app by done. unfold ret. by rewrite drop_last_snoc.
Qed.

Lemma read_byte_next p b rest :
  _reader p = b :: rest → read_byte p = (Ok (ord b), set_reader rest p).
Proof. intros Hr. unfold read_byte, bind, reader_readexactly_1. by rewrite Hr. Qed.

Lemma send_byte_accepted cmd payload p :
  head (_writer_faults p) ≠ Some true →
  send_byte cmd payload p
  = (Ok tt, set_writer (_writer p ++ [cmd :: default [] payload])
                       (tail (_writer_faults p)) p).
Proof.
  intros Hw. destruct payload as [bs|]; unfold send_byte;
    by rewrite writer_write_accepted by done.
Qed.

(** ** The handshake: reset and identification *)

Lemma initialize_reset_ok D p rest :
  _reader p = x00 :: rest → head (_writer_faults p) ≠ Some true →
  initialize_reset D p
  = (Ok tt, set_reader rest (set_writer (_writer p ++ [[GeneralReset D]])
                                        (tail (_writer_faults p)) p)).
Proof.
  intros Hr Hw. unfold initialize_reset.
  rewrite (bind_Ok _ _ _ _ _ (send_byte_accepted _ None p Hw)).
  erewrite bind_Ok by (by apply (read_byte_next _ x00 rest)).
  reflexivity.
Qed.

Lemma initialize_identify_run D p s rest :
  x00 ∉ s → _reader p = s ++ x00 :: rest →
  head (_writer_faults p) ≠ Some true →
  let p' := set_reader rest
              (set_writer (_writer p ++ [[InfoGetConnectedLisyHardware D]])
                          (tail (_writer_faults p)) p) in
  initialize_identify D p
  = if bool_decide (s = LISY1) then (Ok tt, set_system_type 1 p')
    else if bool_decide (s = LISY80) then (Ok tt, set_system_type 80 p')
    else (Raise AssertionError, p').
Proof.
  intros Hs Hr Hw. cbv zeta. unfold initialize_identify.
  rewrite (bind_Ok _ _ _ _ _ (send_byte_accepted _ None p Hw)).
  erewrite bind_Ok by (by apply (read_string_terminated _ s rest)).
  repeat case_bool_decide; reflexivity.
Qed.

(** C3: in the handshake, after the reset is acknowledged, the identify
    response "LISY1" sets the hardware type to 1, "LISY80" sets it to 80, and
    any other string raises AssertionError; this exception leaves
    [initialize] at once: no capacity is queried, no switch is read and the
    poll task is not started. *)
Theorem identify_sets_system_type D p s rest :
  x00 ∉ s →
  _reader p = x00 :: s ++ x00 :: rest →
  accepts_writes p →
  let p1 := (initialize_reset D p).2 in
  let r := initialize_identify D p1 in
  (initialize_reset D p).1 = Ok tt ∧
  (s = LISY1 → r.1 = Ok tt ∧ _system_type r.2 = Some 1) ∧
  (s = LISY80 → r.1 = Ok tt ∧ _system_type r.2 = Some 80) ∧
  (s ≠ LISY1 → s ≠ LISY80 →
     r.1 = Raise AssertionError ∧
     initialize D p = (Raise AssertionError, r.2) ∧
     _system_type r.2 = _system_type p ∧
     _poll_task r.2 = _poll_task p ∧
     _inputs r.2 = _inputs p ∧
     _writer r.2 = _writer p ++ [[GeneralReset D]; [InfoGetConnectedLisyHardware D]]).
Proof.
  intros Hs Hr Hp. cbv zeta.
  pose proof (accepts_writes_head _ Hp) as Hh.
  pose proof (initialize_reset_ok D p _ Hr Hh) as Hreset.
  set (p1 := set_reader (s ++ x00 :: rest)
               (set_writer (_writer p ++ [[GeneralReset D]])
                           (tail (_writer_faults p)) p)) in *.
  assert (head (_writer_faults p1) ≠ Some true) as Hh1.
  { apply accepts_writes_head.
    apply (accepts_writes_set_writer (_writer p ++ [[GeneralReset D]]) p Hp). }
  pose proof (initialize_identify_run D p1 s rest Hs eq_refl Hh1) as Hid.
  cbv zeta in Hid. rewrite Hreset. cbn [fst snd]. rewrite Hid.
  split; [done|]. split; [|split].
  - intros ->. by rewrite bool_decide_eq_true_2.
  - intros ->. rewrite bool_decide_eq_false_2 by done.
    by rewrite bool_decide_eq_true_2.
  - intros H1 H80. rewrite !bool_decide_eq_false_2 by done. cbn [fst snd].
    split; [done|]. split.
    + unfold initialize. rewrite (bind_Ok _ _ _ _ _ Hreset).
      apply bind_Raise. rewrite Hid.
      by rewrite !bool_decide_eq_false_2 by done.
    + repeat split; try done. simpl. by rewrite <- app_assoc.
Qed.

Lemma identify_sets_system_type_witness :
  let p := new_platform 0 ([x00] ++ LISY80 ++ [x00; x0a]) [] in
  let r := initialize_identify lisy_defines (initialize_reset lisy_defines p).2 in
  r.1 = Ok tt ∧ _system_type r.2 = Some 80.
Proof.
  refine (proj1 (proj2 (proj2
    (identify_sets_system_type lisy_defines
       (new_platform 0 ([x00] ++ LISY80 ++ [x00; x0a]) []) LISY80 [x0a] _ _ _))) eq_refl).
  - unfold LISY80. rewrite !not_elem_of_cons. repeat split; try discriminate.
    apply not_elem_of_nil.
  - reflexivity.
  - constructor.
Defined.

(** ** The poll loop *)

Lemma status_bit b :
  (if bool_decide (Z.land (ord b) 128 ≠ 0) then 1 else 0)
  = Z.land (Z.shiftr (ord b) 7) 1.
Proof. destruct b; reflexivity. Qed.

Lemma status_number_range b : 0 ≤ Z.land (ord b) 127 ≤ 127.
Proof. destruct b; vm_compute; split; discriminate. Qed.

Lemma poll_cycle_run D p b rest :
  _reader p = b :: rest → head (_writer_faults p) ≠ Some true →
  let p' := set_reader rest
              (set_writer (_writer p ++ [[SwitchesGetChangedSwitches D]])
                          (tail (_writer_faults p)) p) in
  let switch_num := Z.land (ord b) 127 in
  let switch_state := Z.land (Z.shiftr (ord b) 7) 1 in
  _poll_cycle D p
  = if bool_decide (ord b = 127) then (Ok tt, set_sleeps (S (sleeps p)) p')
    else (Ok tt,
          set_inputs (<[str switch_num := bool_decide (switch_state ≠ 0)]> (_inputs p))
            (set_switch_events
               (switch_events p ++ [(str switch_num, switch_state, platform_id p)]) p')).
Proof.
  intros Hr Hw. cbv zeta. unfold _poll_cycle.
  rewrite (bind_Ok _ _ _ _ _ (send_byte_accepted _ None p Hw)).
  erewrite bind_Ok by (by apply (read_byte_next _ b rest)).
  case_bool_decide; [reflexivity|].
  rewrite status_bit. reflexivity.
Qed.

(** C6: a poll cycle that reads the status byte 127 emits no switch event,
    leaves the cache as it was and sleeps once; with any other status byte b
    it calls the switch controller with the address str(b & 0x7F), the state
    (b >> 7) & 1 and this platform as source, and sets the cache entry of that
    address to that state. *)
Theorem poll_cycle_status D p b rest :
  _reader p = b :: rest →
  head (_writer_faults p) ≠ Some true →
  let r := _poll_cycle D p in
  let address := str (Z.land (ord b) 127) in
  let state := Z.land (Z.shiftr (ord b) 7) 1 in
  r.1 = Ok tt ∧
  (ord b = 127 →
     switch_events r.2 = switch_events p ∧
     _inputs r.2 = _inputs p ∧
     sleeps r.2 = S (sleeps p)) ∧
  (ord b ≠ 127 →
     switch_events r.2 = switch_events p ++ [(address, state, platform_id p)] ∧
     _inputs r.2 = <[address := bool_decide (state = 1)]> (_inputs p) ∧
     sleeps r.2 = sleeps p).
Proof.
  intros Hr Hw. cbv zeta. rewrite (poll_cycle_run D p b rest Hr Hw). cbv zeta.
  case_bool_decide as Hb; cbn [fst snd].
  - split; [done|]. split; [done|]. intros Hne. by destruct Hne.
  - split; [done|]. split; [done|]. intros _. simpl.
    repeat split.
    f_equal. apply bool_decide_ext.
    assert (0 ≤ Z.land (Z.shiftr (ord b) 7) 1 ≤ 1);
      [|lia].
    clear. destruct b; vm_compute; split; discriminate.
Qed.

Lemma poll_cycle_status_witness :
  let p := new_platform 7 [x85] [] in
  let r := _poll_cycle lisy_defines p in
  switch_events r.2 = [("5"%string, 1, 7%nat)] ∧
  _inputs r.2 = {[ "5"%string := true ]} ∧
  sleeps r.2 = 0%nat.
Proof.
  refine (proj2 (proj2
    (poll_cycle_status lisy_defines (new_platform 7 [x85] []) x85 [] _ _)) _).
  - reflexivity.
  - simpl. discriminate.
  - simpl. discriminate.
Defined.

(** ** Hardware rules *)

(** C8: each of the four [set_pulse_on_hit*] rules and [clear_hw_rule], for
    every argument and in every state, raises AssertionError and leaves the
    platform, its writer included, as it was. *)
Theorem hardware_rules_always_raise (enable_switch disable_switch : SwitchSettings)
    (coil : DriverSettings) (p : LisyHardwarePlatform) :
  set_pulse_on_hit_and_enable_and_release_rule enable_switch coil p
    = (Raise AssertionError, p) ∧
  set_pulse_on_hit_and_enable_and_release_and_disable_rule
      enable_switch disable_switch coil p
    = (Raise AssertionError, p) ∧
  set_pulse_on_hit_and_release_rule enable_switch coil p = (Raise AssertionError, p) ∧
  set_pulse_on_hit_rule enable_switch coil p = (Raise AssertionError, p) ∧
  clear_hw_rule enable_switch coil p = (Raise AssertionError, p).
Proof. repeat split. Qed.

(** ** Configuration of lights and displays *)

(** What [configure_light] does on an initialized platform. *)
Lemma configure_light_run n p lamps :
  _number_of_lamps p = Some lamps →
  configure_light n p
  = if bool_decide (_system_type p = Some 80)
    then (if bool_decide (0 < n ∧ lamps ≤ n) then (Raise AssertionError, p)
          else (Ok {| light_number := n |}, p))
    else (if bool_decide (1 < n ∧ lamps < n) then (Raise AssertionError, p)
          else (Ok {| light_number := n |}, p)).
Proof.
  intros Hl. unfold configure_light, bind, get, and_then, ge_count, gt_count, ret, raise.
  rewrite Hl. repeat case_bool_decide; try reflexivity; lia.
Qed.

(** What [configure_segment_display] does on an initialized platform. *)
Lemma configure_segment_display_run n p displays :
  _number_of_displays p = Some displays →
  configure_segment_display n p
  = if bool_decide (0 < n ∧ displays ≤ n) then (Raise AssertionError, p)
    else (Ok {| display_number := n |}, p).
Proof.
  intros Hl.
  unfold configure_segment_display, bind, get, and_then, ge_count, ret, raise.
  rewrite Hl. repeat case_bool_decide; try reflexivity; lia.
Qed.

(** C4, at the failing input: on a System 1 board (one-indexed) that reported
    10 lamps, lamp 0 lies outside 1..10 and yet is configured without an
    error, nothing being written. *)
Lemma configure_light_accepts_lamp_0_on_system_1 :
  let p := set_number_of_lamps 10 (set_system_type 1 (new_platform 0 [] [])) in
  _system_type p ≠ Some 80 ∧
  ¬ (1 ≤ 0 ≤ count_of (_number_of_lamps p)) ∧
  configure_light 0 p = (Ok {| light_number := 0 |}, p).
Proof.
  cbv zeta. split; [discriminate|]. split; [simpl; lia|].
  by rewrite (configure_light_run 0 _ 10).
Qed.

(** C5, at the failing input: on a board that reported 0 displays, the index
    0 is not below the display count and yet display 0 is configured without
    an error. *)
Lemma configure_segment_display_accepts_0_of_0 :
  let p := set_number_of_displays 0 (new_platform 0 [] []) in
  count_of (_number_of_displays p) ≤ 0 ∧
  configure_segment_display 0 p = (Ok {| display_number := 0 |}, p).
Proof.
  cbv zeta. split; [simpl; lia|].
  by rewrite (configure_segment_display_run 0 _ 0).
Qed.

(** ** The bulk switch read *)

Lemma for_each_inner {S B C} (ys : list B) (g : B → C) (body : C → M S unit) s :
  for_each ys (λ y, body (g y)) s = for_each (y ← ys; [g y]) body s.
Proof.
  revert s. induction ys as [|y ys IH]; intros s; [done|].
  rewrite bind_cons. simpl. unfold bind.
  destruct (body (g y) s) as [[[]|e] s1]; [apply IH|done].
Qed.

Lemma for_each_nested {S A B C} (xs : list A) (ys : list B) (f : A → B → C)
    (body : C → M S unit) s :
  for_each xs (λ x, for_each ys (λ y, body (f x y))) s
  = for_each (x ← xs; y ← ys; [f x y]) body s.
Proof.
  revert s. induction xs as [|x xs IH]; intros s; [done|].
  rewrite bind_cons, for_each_app. simpl. unfold bind.
  rewrite (for_each_inner ys (f x) body s).
  destruct (for_each (y ← ys; [f x y]) body s) as [[[]|e] s1]; [apply IH|done].
Qed.

Lemma initialize_switches_flat D p :
  initialize_switches D p = for_each switch_addresses (initialize_switch D) p.
Proof.
  unfold initialize_switches, switch_addresses.
  apply (for_each_nested (range 8) (range 8) (λ row col, row * 10 + col)).
Qed.

Lemma switch_addresses_length : length switch_addresses = 64%nat.
Proof. reflexivity. Qed.

Lemma switch_addresses_range a :
  a ∈ switch_addresses → 0 ≤ a ≤ 77 ∧ a `mod` 10 ≤ 7.
Proof.
  revert a. apply Forall_forall.
  apply (bool_decide_unpack _). by vm_compute.
Qed.

Lemma switch_addresses_NoDup : NoDup switch_addresses.
Proof. apply (bool_decide_unpack _). by vm_compute. Qed.

#[global] Instance str_inj : Inj (=) (=) str.
Proof. unfold str. apply _. Qed.

Lemma initialize_switch_run D a p b rest :
  0 ≤ a < 256 → _reader p = b :: rest → head (_writer_faults p) ≠ Some true →
  let p1 := set_reader rest
              (set_writer (_writer p ++ [switch_query D a])
                          (tail (_writer_faults p)) p) in
  initialize_switch D a p
  = if bool_decide (ord b > 1) then (Raise AssertionError, p1)
    else (Ok tt, set_inputs (<[str a := bool_decide (ord b = 1)]> (_inputs p)) p1).
Proof.
  intros Ha Hr Hw. cbv zeta. unfold initialize_switch.
  rewrite (bind_Ok _ _ _ _ _ (bytes_address a p Ha)).
  rewrite (bind_Ok _ _ _ _ _ (send_byte_accepted _ (Some [to_byte a]) p Hw)).
  erewrite bind_Ok by (by apply (read_byte_next _ b rest)).
  case_bool_decide; reflexivity.
Qed.

Lemma read_switches_ok D addrs : ∀ resp p rest,
  Forall (λ a, 0 ≤ a < 256) addrs →
  length resp = length addrs →
  Forall (λ b, ord b ≤ 1) resp →
  _reader p = resp ++ rest →
  accepts_writes p →
  ∃ p',
    for_each addrs (initialize_switch D) p = (Ok tt, p') ∧
    accepts_writes p' ∧
    _reader p' = rest ∧
    _writer p' = _writer p ++ (switch_query D <$> addrs) ∧
    _inputs p' = store_switches addrs resp (_inputs p) ∧
    _poll_task p' = _poll_task p.
Proof.
  induction addrs as [|a addrs IH]; intros resp p rest Ha Hlen Hresp Hr Hp.
  - destruct resp; [|done]. exists p. simpl. by rewrite app_nil_r.
  - destruct resp as [|b resp]; [done|].
    apply Forall_cons_1 in Ha as [Ha Haddrs].
    apply Forall_cons_1 in Hresp as [Hb Hresp].
    pose proof (initialize_switch_run D a p b (resp ++ rest) Ha Hr
                  (accepts_writes_head _ Hp)) as Hstep.
    cbv zeta in Hstep. rewrite bool_decide_eq_false_2 in Hstep by lia.
    set (p1 := set_inputs _ _) in Hstep.
    destruct (IH resp p1 rest Haddrs) as (p' & Hrun & Hp' & Hr' & Hw' & Hi' & Ht');
      [by simplify_eq/= | done | done
      | apply (accepts_writes_set_writer (_writer p ++ [switch_query D a]) p Hp) |].
    exists p'. cbn [for_each]. rewrite (bind_Ok _ _ _ _ _ Hstep).
    repeat split; try done.
    rewrite Hw'. simpl. by rewrite <- app_assoc.
Qed.

Lemma read_switches_bad D addrs1 a addrs2 resp b p rest :
  Forall (λ a, 0 ≤ a < 256) (addrs1 ++ [a]) →
  length resp = length addrs1 →
  Forall (λ b, ord b ≤ 1) resp →
  1 < ord b →
  _reader p = resp ++ b :: rest →
  accepts_writes p →
  ∃ p',
    for_each (addrs1 ++ a :: addrs2) (initialize_switch D) p = (Raise AssertionError, p') ∧
    _writer p' = _writer p ++ (switch_query D <$> addrs1 ++ [a]) ∧
    _poll_task p' = _poll_task p.
Proof.
  intros Ha Hlen Hresp Hb Hr Hp.
  apply Forall_app in Ha as [Ha1 Ha]. apply Forall_cons_1 in Ha as [Ha _].
  destruct (read_switches_ok D addrs1 resp p (b :: rest) Ha1 Hlen Hresp Hr Hp)
    as (p1 & Hrun & Hp1 & Hr1 & Hw1 & _ & Ht1).
  pose proof (initialize_switch_run D a p1 b rest Ha Hr1
                (accepts_writes_head _ Hp1)) as Hstep.
  cbv zeta in Hstep. rewrite bool_decide_eq_true_2 in Hstep by lia.
  eexists. rewrite for_each_app. rewrite (bind_Ok _ _ _ _ _ Hrun).
  cbn [for_each]. rewrite (bind_Raise _ _ _ _ _ Hstep).
  split; [reflexivity|]. simpl. rewrite Hw1, Ht1.
  split; [|done]. by rewrite fmap_app, <- app_assoc.
Qed.

(** ** The cache after the bulk read *)

Lemma store_switches_notin addrs : ∀ resp m k,
  (∀ a, a ∈ addrs → str a ≠ k) →
  store_switches addrs resp m !! k = m !! k.
Proof.
  unfold store_switches.
  induction addrs as [|a addrs IH]; intros resp m k Hk; [done|].
  destruct resp as [|b resp]; [done|]. simpl.
  rewrite IH by (intros a' Ha'; apply Hk; by right).
  apply lookup_insert_ne, Hk. by left.
Qed.

Lemma store_switches_lookup addrs : ∀ resp m i a b,
  NoDup addrs → addrs !! i = Some a → resp !! i = Some b →
  store_switches addrs resp m !! str a = Some (bool_decide (ord b = 1)).
Proof.
  induction addrs as [|a' addrs IH]; intros resp m i a b Hnd Ha Hb; [done|].
  destruct resp as [|b' resp]; [done|].
  apply NoDup_cons in Hnd as [Hnotin Hnd].
  destruct i as [|i]; simpl in Ha, Hb.
  - simplify_eq. change (store_switches (a :: addrs) (b :: resp) m)
      with (store_switches addrs resp (<[str a := bool_decide (ord b = 1)]> m)).
    rewrite store_switches_notin; [apply lookup_insert_eq|].
    intros a' Ha' Heq. apply (inj str) in Heq. by subst.
  - apply (IH resp _ i a b Hnd Ha Hb).
Qed.

Lemma store_switches_dom addrs : ∀ resp m,
  length resp = length addrs →
  dom (store_switches addrs resp m) = dom m ∪ list_to_set (str <$> addrs).
Proof.
  unfold store_switches.
  induction addrs as [|a addrs IH]; intros resp m Hlen.
  - simpl. by rewrite (right_id_L ∅ (∪)).
  - destruct resp as [|b resp]; [done|]. simpl.
    rewrite IH by (by simplify_eq/=).
    rewrite dom_insert_L, (comm_L (∪) {[str a]} (dom m)).
    by rewrite <- (assoc_L (∪)).
Qed.

Lemma store_switches_size resp :
  length resp = 64%nat → size (store_switches switch_addresses resp ∅) = 64%nat.
Proof.
  intros Hlen. rewrite <- size_dom, store_switches_dom by done.
  rewrite dom_empty_L, (left_id_L ∅ (∪)).
  rewrite size_list_to_set by (apply (NoDup_fmap_2 str), switch_addresses_NoDup).
  by rewrite length_fmap.
Qed.

(** ** The handshake up to the bulk read *)

Lemma send_then_read {A} cmd (k : Z → M LisyHardwarePlatform A) p b rest :
  _reader p = b :: rest → head (_writer_faults p) ≠ Some true →
  (send_byte cmd None ;;; let* n := read_byte in k n) p
  = k (ord b) (set_reader rest (set_writer (_writer p ++ [[cmd]])
                                           (tail (_writer_faults p)) p)).
Proof.
  intros Hr Hw.
  rewrite (bind_Ok _ _ _ _ _ (send_byte_accepted _ None p Hw)).
  erewrite bind_Ok by (by apply (read_byte_next _ b rest)).
  reflexivity.
Qed.

Lemma modify_then {S A} (f : S → S) (k : M S A) s : (modify f ;;; k) s = k (f s).
Proof. reflexivity. Qed.

Lemma Forall_tail_false (f : list bool) :
  Forall (λ b, b = false) f → Forall (λ b, b = false) (tail f).
Proof. destruct f; simpl; [done|]. by intros [_ H]%Forall_cons_1. Qed.

Lemma Forall_false_head (f : list bool) :
  Forall (λ b, b = false) f → head f ≠ Some true.
Proof. destruct f; simpl; [done|]. by intros [-> _]%Forall_cons_1. Qed.

Lemma initialize_capacities_ok D p l s d rest :
  _reader p = l :: s :: d :: rest → accepts_writes p →
  ∃ p',
    initialize_capacities D p = (Ok tt, p') ∧
    accepts_writes p' ∧
    _reader p' = rest ∧
    _writer p' = _writer p ++ [[InfoGetNumberOfLamps D]; [InfoGetNumberOfSolenoids D];
                               [InfoGetNumberOfDisplays D]] ∧
    _inputs p' = _inputs p ∧
    _poll_task p' = _poll_task p ∧
    _system_type p' = _system_type p ∧
    _number_of_lamps p' = Some (ord l) ∧
    _number_of_solenoids p' = Some (ord s) ∧
    _number_of_displays p' = Some (ord d).
Proof.
  intros Hr Hp. unfold accepts_writes in Hp.
  pose proof (Forall_tail_false _ Hp) as Hp1.
  pose proof (Forall_tail_false _ Hp1) as Hp2.
  pose proof (Forall_tail_false _ Hp2) as Hp3.
  eexists. unfold initialize_capacities.
  rewrite (send_then_read _ _ p l (s :: d :: rest) Hr (Forall_false_head _ Hp)).
  rewrite modify_then.
  erewrite (send_then_read _ _ _ s (d :: rest)); [|reflexivity|by apply Forall_false_head].
  rewrite modify_then.
  erewrite (send_then_read _ _ _ d rest); [|reflexivity|by apply Forall_false_head].
  split; [reflexivity|]. simpl.
  repeat split; try done.
  by rewrite <- !app_assoc.
Qed.

Lemma LISY1_no_zero : x00 ∉ LISY1.
Proof. apply (bool_decide_unpack _). by vm_compute. Qed.

Lemma LISY80_no_zero : x00 ∉ LISY80.
Proof. apply (bool_decide_unpack _). by vm_compute. Qed.

(** The handshake of a recognised board that acknowledges the reset and
    reports its three counts. *)
Lemma initialize_prefix_ok D p ident l s d rest :
  ident = LISY1 ∨ ident = LISY80 →
  _reader p = x00 :: ident ++ x00 :: l :: s :: d :: rest →
  accepts_writes p →
  ∃ p',
    (∀ k : M LisyHardwarePlatform unit,
       (initialize_reset D ;;; initialize_identify D ;;; initialize_capacities D ;;; k) p
       = k p') ∧
    accepts_writes p' ∧
    _reader p' = rest ∧
    _writer p' = _writer p ++ [[GeneralReset D]; [InfoGetConnectedLisyHardware D];
                               [InfoGetNumberOfLamps D]; [InfoGetNumberOfSolenoids D];
                               [InfoGetNumberOfDisplays D]] ∧
    _inputs p' = _inputs p ∧
    _poll_task p' = _poll_task p ∧
    _system_type p' = Some (if bool_decide (ident = LISY1) then 1 else 80) ∧
    _number_of_lamps p' = Some (ord l) ∧
    _number_of_solenoids p' = Some (ord s) ∧
    _number_of_displays p' = Some (ord d).
Proof.
  intros Hident Hr Hp.
  assert (x00 ∉ ident) as Hz
    by (destruct Hident as [-> | ->]; [apply LISY1_no_zero | apply LISY80_no_zero]).
  pose proof (initialize_reset_ok D p _ Hr (accepts_writes_head _ Hp)) as Hreset.
  set (p1 := set_reader _ _) in Hreset.
  assert (accepts_writes p1) as Hp1
    by apply (accepts_writes_set_writer (_writer p ++ [[GeneralReset D]]) p Hp).
  pose proof (initialize_identify_run D p1 ident (l :: s :: d :: rest) Hz eq_refl
                (accepts_writes_head _ Hp1)) as Hid.
  cbv zeta in Hid.
  set (p2 := set_reader _ _) in Hid.
  set (t := if bool_decide (ident = LISY1) then 1 else 80).
  assert (initialize_identify D p1 = (Ok tt, set_system_type t p2)) as Hid'.
  { rewrite Hid. unfold t. destruct Hident as [-> | ->].
    - by rewrite bool_decide_eq_true_2.
    - by rewrite bool_decide_eq_false_2, bool_decide_eq_true_2. }
  assert (accepts_writes (set_system_type t p2)) as Hp2
    by apply (accepts_writes_set_writer
                (_writer p1 ++ [[InfoGetConnectedLisyHardware D]]) p1 Hp1).
  destruct (initialize_capacities_ok D (set_system_type t p2) l s d rest eq_refl Hp2)
    as (p3 & Hcap & Hp3 & Hr3 & Hw3 & Hi3 & Ht3 & Hs3 & Hl3 & Hso3 & Hd3).
  exists p3. split.
  - intros k. rewrite (bind_Ok _ _ _ _ _ Hreset), (bind_Ok _ _ _ _ _ Hid').
    by rewrite (bind_Ok _ _ _ _ _ Hcap).
  - repeat split; try done.
    rewrite Hw3. simpl. by rewrite <- !app_assoc.
Qed.

(** C7: on a fresh platform, once the board has acknowledged the reset,
    identified itself and reported its counts, [initialize] queries the 64
    addresses row*10+col (rows 0..7, columns 0..7) in row-major order, one
    query each and nothing else.  If the 64 answers are all 0 or 1, it returns,
    the cache holds exactly 64 entries, the entry of each address being the
    boolean "its answer is 1", and the poll task is started.  If an answer is
    greater than 1, [initialize] raises AssertionError at that switch: no
    further query is sent and the poll task is not started. *)
Theorem initialize_reads_all_switches D id ident l s d resp faults :
  ident = LISY1 ∨ ident = LISY80 →
  Forall (λ f, f = false) faults →
  let handshake := [[GeneralReset D]; [InfoGetConnectedLisyHardware D];
                    [InfoGetNumberOfLamps D]; [InfoGetNumberOfSolenoids D];
                    [InfoGetNumberOfDisplays D]] in
  let p0 := new_platform id (x00 :: ident ++ x00 :: l :: s :: d :: resp) faults in
  let r := initialize D p0 in
  ((64 ≤ length resp)%nat → Forall (λ b, ord b ≤ 1) (take 64 resp) →
     r.1 = Ok tt ∧
     _writer r.2 = handshake ++ (switch_query D <$> switch_addresses) ∧
     size (_inputs r.2) = 64%nat ∧
     (∀ i a b, switch_addresses !! i = Some a → resp !! i = Some b →
               _inputs r.2 !! str a = Some (bool_decide (ord b = 1))) ∧
     _poll_task r.2 = true) ∧
  (∀ k b, (k < 64)%nat → resp !! k = Some b →
          Forall (λ b, ord b ≤ 1) (take k resp) → 1 < ord b →
     r.1 = Raise AssertionError ∧
     _writer r.2 = handshake ++ (switch_query D <$> take (S k) switch_addresses) ∧
     _poll_task r.2 = false).
Proof.
  intros Hident Hf. cbv zeta.
  set (p0 := new_platform id _ faults).
  destruct (initialize_prefix_ok D p0 ident l s d resp Hident eq_refl Hf)
    as (p3 & Hchain & Hp3 & Hr3 & Hw3 & Hi3 & Ht3 & _).
  assert (Forall (λ a, 0 ≤ a < 256) switch_addresses) as Hrange.
  { apply Forall_forall. intros a Ha%switch_addresses_range. lia. }
  assert (initialize D p0
          = match for_each switch_addresses (initialize_switch D) p3 with
            | (Ok _, p4) => (Ok tt, set_poll_task true p4)
            | (Raise e, p4) => (Raise e, p4)
            end) as ->.
  { unfold initialize. rewrite Hchain. unfold bind.
    by rewrite initialize_switches_flat. }
  split.
  - intros Hlen Hresp.
    destruct (read_switches_ok D switch_addresses (take 64 resp) p3 (drop 64 resp))
      as (p4 & Hrun & _ & _ & Hw4 & Hi4 & Ht4);
      [done | by rewrite length_take, switch_addresses_length; lia | done
      | by rewrite take_drop | done |].
    rewrite Hrun. cbn [fst snd].
    change (_writer (set_poll_task true p4)) with (_writer p4).
    change (_inputs (set_poll_task true p4)) with (_inputs p4).
    rewrite Hw4, Hw3, Hi4, Hi3.
    split; [done|]. split; [done|]. split; [|split; [|done]].
    + apply store_switches_size. rewrite length_take. lia.
    + intros i a b Ha Hb.
      apply (store_switches_lookup _ _ _ i a b); [apply switch_addresses_NoDup|done|].
      rewrite lookup_take_lt; [done|].
      apply lookup_lt_Some in Ha. by rewrite switch_addresses_length in Ha.
  - intros k b Hk Hb Hresp Hbad.
    destruct (lookup_lt_is_Some_2 switch_addresses k) as [a Ha];
      [by rewrite switch_addresses_length|].
    pose proof (lookup_lt_Some _ _ _ Hb) as Hklen.
    destruct (read_switches_bad D (take k switch_addresses) a
                (drop (S k) switch_addresses) (take k resp) b p3 (drop (S k) resp))
      as (p4 & Hrun & Hw4 & Ht4);
      [ | by rewrite !length_take, switch_addresses_length; lia | done | done
        | by rewrite Hr3, take_drop_middle | done |].
    { rewrite <- (take_S_r _ _ _ Ha). by apply Forall_take. }
    rewrite (take_drop_middle switch_addresses k a Ha) in Hrun.
    rewrite Hrun. cbn [fst snd]. rewrite Hw4, Hw3, Ht4, Ht3.
    rewrite (take_S_r _ _ _ Ha).
    split; [done|]. split; [|done]. by rewrite <- !app_assoc.
Qed.

Lemma initialize_reads_all_switches_witness :
  let p0 := new_platform 0 (x00 :: LISY80 ++ x00 :: x0a :: x05 :: x02
                              :: replicate 64 x01) [] in
  let r := initialize lisy_defines p0 in
  r.1 = Ok tt ∧ size (_inputs r.2) = 64%nat ∧ _poll_task r.2 = true.
Proof.
  destruct (proj1 (initialize_reads_all_switches lisy_defines 0 LISY80 x0a x05 x02
                     (replicate 64 x01) [] (or_intror eq_refl) (Forall_nil_2 _)))
    as (Hok & _ & Hsize & _ & Htask).
  - simpl. lia.
  - apply (bool_decide_unpack _). by vm_compute.
  - exact (conj Hok (conj Hsize Htask)).
Defined.

(** ** Invariants of the cache *)

Lemma preserves_ret {S A} (I : S → Prop) (a : A) : preserves I (ret a).
Proof. by intros s. Qed.

Lemma preserves_raise {S A} (I : S → Prop) e : preserves I (raise (A:=A) e).
Proof. by intros s. Qed.

Lemma preserves_bind {S A B} (I : S → Prop) (c : M S A) (k : A → M S B) :
  preserves I c → (∀ a, preserves I (k a)) → preserves I (bind c k).
Proof.
  intros Hc Hk s Hs. unfold bind. specialize (Hc s Hs).
  destruct (c s) as [[a|e] s1]; [by apply Hk|done].
Qed.

Lemma preserves_for_each {S A} (I : S → Prop) (xs : list A) (body : A → M S unit) :
  (∀ x, x ∈ xs → preserves I (body x)) → preserves I (for_each xs body).
Proof.
  induction xs as [|x xs IH]; intros Hbody; simpl.
  - apply preserves_ret.
  - apply preserves_bind; [apply Hbody; by left|].
    intros _. apply IH. intros y Hy. apply Hbody. by right.
Qed.

(** A method that leaves [_inputs] alone keeps every property of its keys. *)
Lemma preserves_frame {A} P (c : M LisyHardwarePlatform A) :
  (∀ p, _inputs (c p).2 = _inputs p) → preserves (keys_in P) c.
Proof. intros Hc p Hp k. rewrite Hc. apply Hp. Qed.

Lemma preserves_send_byte P cmd payload : preserves (keys_in P) (send_byte cmd payload).
Proof.
  apply preserves_frame. intros p.
  destruct payload; unfold send_byte, writer_write;
    by destruct (_writer_faults p) as [|[] f].
Qed.

Lemma preserves_read_byte P : preserves (keys_in P) read_byte.
Proof.
  apply preserves_frame. intros p.
  unfold read_byte, bind, reader_readexactly_1. by destruct (_reader p).
Qed.

Lemma preserves_read_string P : preserves (keys_in P) read_string.
Proof.
  apply preserves_frame. intros p.
  unfold read_string, bind, reader_readuntil_zero.
  by destruct (split_after_zero (_reader p)) as [[d rest]|].
Qed.

Lemma preserves_bytes {S} (I : S → Prop) ints : preserves I (bytes ints).
Proof. intros s Hs. unfold bytes. by destruct (mapM byte_of_int ints). Qed.

Lemma preserves_store P a (v : LisyHardwarePlatform → bool) :
  P a →
  preserves (keys_in P) (modify (λ p, set_inputs (<[str a := v p]> (_inputs p)) p)).
Proof.
  intros Ha p Hp k. simpl.
  destruct (decide (str a = k)) as [<-|Hne].
  - intros _. by exists a.
  - rewrite lookup_insert_ne by done. apply Hp.
Qed.

Lemma keys_in_mono (P Q : Z → Prop) p :
  (∀ a, P a → Q a) → keys_in P p → keys_in Q p.
Proof. intros HPQ Hp k Hk. destruct (Hp k Hk) as (a & -> & Ha). exists a. auto. Qed.

Lemma elem_of_range n x : x ∈ range n → 0 ≤ x < Z.of_nat n.
Proof.
  unfold range. intros (i & -> & Hi%elem_of_seq)%list_elem_of_fmap. lia.
Qed.

Section Invariants.

Variable D : LisyDefines.

Lemma preserves_initialize_switch P a :
  P a → preserves (keys_in P) (initialize_switch D a).
Proof.
  intros Ha. unfold initialize_switch.
  apply preserves_bind; [apply preserves_bytes|]. intros payload.
  apply preserves_bind; [apply preserves_send_byte|]. intros _.
  apply preserves_bind; [apply preserves_read_byte|]. intros state.
  case_bool_decide; [apply preserves_raise|].
  by apply (preserves_store P a (λ _, bool_decide (state = 1))).
Qed.

Lemma preserves_initialize :
  preserves (keys_in (λ a, 0 ≤ a ≤ 77 ∧ a `mod` 10 ≤ 7)) (initialize D).
Proof.
  unfold initialize.
  apply preserves_bind; [|intros _].
  { unfold initialize_reset.
    apply preserves_bind; [apply preserves_send_byte|]. intros _.
    apply preserves_bind; [apply preserves_read_byte|]. intros code.
    case_bool_decide; [apply preserves_raise | apply preserves_ret]. }
  apply preserves_bind; [|intros _].
  { unfold initialize_identify.
    apply preserves_bind; [apply preserves_send_byte|]. intros _.
    apply preserves_bind; [apply preserves_read_string|]. intros type_str.
    repeat case_bool_decide;
      first [apply preserves_raise | apply preserves_frame; intros p; reflexivity]. }
  apply preserves_bind; [|intros _].
  { unfold initialize_capacities.
    repeat first
      [ apply preserves_send_byte
      | apply preserves_read_byte
      | apply preserves_frame; intros p; reflexivity
      | apply preserves_bind; [|intros ?] ]. }
  apply preserves_bind;
    [|intros _; apply preserves_frame; intros p; reflexivity].
  unfold initialize_switches.
  apply preserves_for_each. intros row Hrow%elem_of_range.
  apply preserves_for_each. intros col Hcol%elem_of_range.
  apply preserves_initialize_switch. split; [lia|].
  rewrite Z.add_comm, Z.mod_add, Z.mod_small by lia. lia.
Qed.

Lemma preserves_poll_cycle :
  preserves (keys_in (λ a, 0 ≤ a ≤ 127)) (_poll_cycle D).
Proof.
  unfold _poll_cycle.
  apply preserves_bind; [apply preserves_send_byte|]. intros _.
  apply preserves_bind; [apply preserves_read_byte|]. intros status.
  case_bool_decide; [apply preserves_frame; intros p; reflexivity|].
  apply preserves_bind; [apply preserves_frame; intros p; reflexivity|]. intros _.
  apply (preserves_store (λ a, 0 ≤ a ≤ 127) (Z.land status 127)).
  change 127 with (Z.ones 7). rewrite Z.land_ones by lia.
  change (Z.ones 7) with 127. pose proof (Z.mod_pos_bound status (2 ^ 7)). lia.
Qed.

Lemma preserves_poll turns : preserves (keys_in (λ a, 0 ≤ a ≤ 127)) (_poll D turns).
Proof.
  induction turns as [|n IH]; simpl.
  - apply preserves_ret.
  - apply preserves_bind; [apply preserves_poll_cycle|]. by intros _.
Qed.

End Invariants.

(** C9 (as amended): whatever bytes the controller returns and whatever the
    writer does, every key of the cache after [initialize] is the decimal
    string of an address at most 77 whose column (address mod 10) is at most
    7; after any number of poll cycles every key is the decimal string of an
    address in 0..127, the low seven bits of a status byte, stored without a
    check of its column. *)
Theorem cache_keys_invariant D id incoming faults turns :
  let p1 := (initialize D (new_platform id incoming faults)).2 in
  let p2 := (_poll D turns p1).2 in
  keys_in (λ a, 0 ≤ a ≤ 77 ∧ a `mod` 10 ≤ 7) p1 ∧
  keys_in (λ a, 0 ≤ a ≤ 127) p2.
Proof.
  cbv zeta.
  assert (keys_in (λ a, 0 ≤ a ≤ 77 ∧ a `mod` 10 ≤ 7)
            (initialize D (new_platform id incoming faults)).2) as H1.
  { apply preserves_initialize. intros k [v Hk]. simpl in Hk. by rewrite lookup_empty in Hk. }
  split; [done|].
  apply preserves_poll. revert H1. apply keys_in_mono. lia.
Qed.

(** After a complete handshake, one poll cycle that reads the status byte 8
    stores the key "8", the address of column 8. *)
Lemma poll_stores_column_8 :
  let p0 := new_platform 0 (x00 :: LISY80 ++ x00 :: x0a :: x05 :: x02
                              :: replicate 64 x00 ++ [x08]) [] in
  let r1 := initialize lisy_defines p0 in
  let r2 := _poll lisy_defines 1 r1.2 in
  r1.1 = Ok tt ∧ r2.1 = Ok tt ∧
  _inputs r2.2 !! str 8 = Some false ∧
  ¬ (8 `mod` 10 ≤ 7).
Proof. vm_compute. repeat split; try done. Qed.

(** * Further properties of the driver handle *)

Lemma pulse_same_duration D drv p d :
  d = _pulse_ms drv → 0 ≤ number drv < 256 →
  head (_writer_faults p) ≠ Some true →
  pulse D {| duration := d |} (drv, p)
  = (Ok tt, (drv, set_writer (_writer p ++ [[SolenoidsPulseSolenioid D; to_byte (number drv)]])
                             (tail (_writer_faults p)) p)).
Proof.
  intros Hd Hn Hw. unfold pulse.
  erewrite bind_Ok by (by apply configure_pulse_ms_same).
  unfold bind, get; simpl. rewrite bytes_address by done.
  unfold on_platform, send_byte; simpl.
  by rewrite writer_write_accepted by done.
Qed.

Lemma disable_run D drv p :
  0 ≤ number drv < 256 → head (_writer_faults p) ≠ Some true →
  disable D (drv, p)
  = (Ok tt, (drv, set_writer (_writer p ++ [[SolenoidsSetSolenoidToOff D; to_byte (number drv)]])
                             (tail (_writer_faults p)) p)).
Proof.
  intros Hn Hw. unfold disable, bind, get; simpl. rewrite bytes_address by done.
  unfold on_platform, send_byte; simpl.
  by rewrite writer_write_accepted by done.
Qed.

(** [disable] writes the "off" command and leaves the stored pulse time
    alone: a pulse, a disable and a second pulse of the same duration send
    the pulse time once. *)
Theorem disable_keeps_pulse_time D n d p :
  0 ≤ n < 256 → 0 ≤ d < 65536 → accepts_writes p →
  let r := for_each [OpPulse {| duration := d |}; OpDisable; OpPulse {| duration := d |}]
             (run_op D) (new_driver n, p) in
  r.1 = Ok tt ∧
  _pulse_ms r.2.1 = d ∧
  _writer r.2.2
  = _writer p ++ [pulse_time_command D n d;
                  [SolenoidsPulseSolenioid D; to_byte n];
                  [SolenoidsSetSolenoidToOff D; to_byte n];
                  [SolenoidsPulseSolenioid D; to_byte n]].
Proof.
  intros Hn Hd Hp. cbv zeta.
  destruct (run_call_writes D (CallPulse {| duration := d |}) (new_driver n) p Hn Hd Hp)
    as (p1 & Hrun1 & Hp1 & Hw1).
  simpl in Hrun1, Hw1. rewrite bool_decide_eq_true_2 in Hw1 by lia.
  pose proof (disable_run D (set_pulse_ms d (new_driver n)) p1 Hn
                (accepts_writes_head _ Hp1)) as Hrun2.
  set (p2 := set_writer _ _ p1) in Hrun2.
  assert (accepts_writes p2) as Hp2 by (by apply accepts_writes_set_writer).
  pose proof (pulse_same_duration D (set_pulse_ms d (new_driver n)) p2 d eq_refl Hn
                (accepts_writes_head _ Hp2)) as Hrun3.
  cbn [for_each run_op].
  rewrite (bind_Ok _ _ _ _ _ Hrun1), (bind_Ok _ _ _ _ _ Hrun2), (bind_Ok _ _ _ _ _ Hrun3).
  simpl. rewrite Hw1. repeat split. by rewrite <- !app_assoc.
Qed.

Lemma disable_keeps_pulse_time_witness :
  let r := for_each [OpPulse {| duration := 1000 |}; OpDisable;
                     OpPulse {| duration := 1000 |}]
             (run_op lisy_defines) (new_driver 5, new_platform 0 [] []) in
  r.1 = Ok tt ∧
  _pulse_ms r.2.1 = 1000 ∧
  _writer r.2.2 = [[x18; x05; x03; xe8]; [x17; x05]; [x16; x05]; [x17; x05]].
Proof.
  apply (disable_keeps_pulse_time lisy_defines 5 1000 (new_platform 0 [] [])).
  - lia.
  - lia.
  - constructor.
Defined.





(** A negative duration above -256 is not rejected: [int(d / 256)] truncates
    to 0 while [d % 256] is d + 256, so the controller is sent the pulse time
    d + 256. *)
Theorem negative_pulse_time_wraps D drv p d :
  0 ≤ number drv < 256 → -256 < d < 0 → d ≠ _pulse_ms drv →
  head (_writer_faults p) ≠ Some true →
  _configure_pulse_ms D d (drv, p)
  = (Ok tt, (set_pulse_ms d drv,
             set_writer (_writer p ++ [[SolenoidsSetSolenoidPulseTime D;
                                        to_byte (number drv); x00; to_byte (d + 256)]])
                        (tail (_writer_faults p)) p)).
Proof.
  intros Hn Hd Hne Hw. unfold _configure_pulse_ms, bind, get; simpl.
  rewrite bool_decide_eq_true_2 by done.
  unfold on_driver, modify; simpl. unfold int_truediv_256.
  assert (65536 ≤ 2 ^ 1032 - 2 ^ 978) as Hbig by (by vm_compute).
  rewrite bool_decide_eq_false_2
    by (revert Hbig; generalize (2 ^ 1032 - 2 ^ 978); lia).
  assert (d ÷ 256 = 0) as ->.
  { replace d with (- (- d)) by lia. rewrite Z.quot_opp_l by lia.
    rewrite Z.quot_small by lia. done. }
  assert (d `mod` 256 = d + 256) as ->.
  { rewrite <- (Z.mod_add d 1 256) by lia. apply Z.mod_small. lia. }
  unfold ret, bytes. simpl.
  rewrite (byte_of_int_to_byte (number drv)) by done. simpl.
  rewrite (byte_of_int_to_byte (d + 256)) by lia. simpl.
  unfold on_platform, send_byte; simpl.
  by rewrite writer_write_accepted by done.
Qed.

Lemma negative_pulse_time_wraps_witness :
  _configure_pulse_ms lisy_defines (-5) (new_driver 5, new_platform 0 [] [])
  = (Ok tt, (set_pulse_ms (-5) (new_driver 5),
             set_writer [[x18; x05; x00; xfb]] [] (new_platform 0 [] []))).
Proof.
  apply (negative_pulse_time_wraps lisy_defines (new_driver 5) (new_platform 0 [] []) (-5)).
  - simpl. lia.
  - lia.
  - simpl. lia.
  - simpl. discriminate.
Defined.

(** * Further properties of the codec *)












(** [set_text] raises ValueError and writes nothing when the command code
    DisplaysSetDisplay0To + number is no byte, or when the text holds a
    surrogate code point. *)
Theorem set_text_rejects D self text p :
  ¬ (0 ≤ ord (DisplaysSetDisplay0To D) + display_number self < 256)
  ∨ Exists (λ c, 55296 ≤ c ≤ 57343) text →
  set_text D self text p = (Raise ValueError, p).
Proof.
  intros H. unfold set_text, send_string, bind.
  unfold bytes at 1. simpl.
  destruct (byte_of_int (ord (DisplaysSetDisplay0To D) + display_number self))
    as [c|] eqn:Ec; simpl; [|done].
  destruct H as [Hcmd|Hsur].
  - apply byte_of_int_Some in Ec. pose proof (ord_range c). lia.
  - unfold encode. by rewrite bool_decide_eq_true_2 by done.
Qed.

Lemma set_text_rejects_witness :
  set_text lisy_defines {| display_number := 226 |} [72; 105] (new_platform 0 [] [])
  = (Raise ValueError, new_platform 0 [] []).
Proof.
  apply (set_text_rejects lisy_defines {| display_number := 226 |} [72; 105]).
  left. change (¬ (0 ≤ 256 < 256)). lia.
Defined.

(** * Further properties of lights *)

Lemma set_brightness_run D self b p :
  0 ≤ light_number self < 256 → head (_writer_faults p) ≠ Some true →
  set_brightness D self b p
  = (Ok tt, set_writer
              (_writer p ++ [[if PrimFloat.ltb 0%float b then LampsSetLampOn D
                              else LampsSetLampOff D;
                              to_byte (light_number self)]])
              (tail (_writer_faults p)) p).
Proof.
  intros Hn Hw. unfold set_brightness.
  destruct (PrimFloat.ltb 0%float b);
    rewrite (bind_Ok _ _ _ _ _ (bytes_address _ p Hn));
    by rewrite send_byte_accepted by done.
Qed.

(** A lamp number from 0 up that [configure_light] accepts, on a board whose
    lamp count is the byte read at the handshake, always fits the command:
    [set_brightness] on the handle writes exactly one chunk, "lamp on" for a
    brightness above 0 and "lamp off" otherwise (0, negative or NaN), followed
    by the lamp number. *)
Theorem configured_light_can_be_set D n p lamps light p1 b q :
  _number_of_lamps p = Some lamps → 0 ≤ lamps < 256 → 0 ≤ n →
  configure_light n p = (Ok light, p1) →
  head (_writer_faults q) ≠ Some true →
  set_brightness D light b q
  = (Ok tt, set_writer
              (_writer q ++ [[if PrimFloat.ltb 0%float b then LampsSetLampOn D
                              else LampsSetLampOff D;
                              to_byte n]])
              (tail (_writer_faults q)) q).
Proof.
  intros Hl Hlamps Hn Hcfg Hw.
  rewrite (configure_light_run n p lamps Hl) in Hcfg.
  assert (light = {| light_number := n |} ∧ n < 256) as [-> Hlt].
  { repeat case_bool_decide; simplify_eq; split; try done; lia. }
  by apply (set_brightness_run D {| light_number := n |} b q).
Qed.

Lemma configured_light_can_be_set_witness :
  set_brightness lisy_defines {| light_number := 3 |} 0.5%float (new_platform 0 [] [])
  = (Ok tt, set_writer [[x0b; x03]] [] (new_platform 0 [] [])).
Proof.
  apply (configured_light_can_be_set lisy_defines 3
           (set_number_of_lamps 10 (set_system_type 80 (new_platform 0 [] [])))
           10 {| light_number := 3 |}
           (set_number_of_lamps 10 (set_system_type 80 (new_platform 0 [] [])))
           0.5%float (new_platform 0 [] [])).
  - reflexivity.
  - lia.
  - lia.
  - reflexivity.
  - simpl. discriminate.
Defined.

(** Every negative lamp number is accepted by [configure_light], on either
    system type and whatever the lamp count (even before it is read), and the
    handle it returns is useless: each [set_brightness] raises ValueError before a byte is written. *)
Theorem negative_lamp_is_accepted_and_unusable D n p b q :
  n < 0 →
  configure_light n p = (Ok {| light_number := n |}, p) ∧
  set_brightness D {| light_number := n |} b q = (Raise ValueError, q).
Proof.
  intros Hn. split.
  - unfold configure_light, bind, get, and_then.
    rewrite (bool_decide_eq_false_2 (0 < n)), (bool_decide_eq_false_2 (1 < n)) by lia.
    by case_bool_decide.
  - unfold set_brightness, bind, bytes. simpl.
    rewrite (byte_of_int_None n) by lia. simpl.
    by destruct (PrimFloat.ltb 0%float b).
Qed.

Lemma negative_lamp_is_accepted_and_unusable_witness :
  let p := set_number_of_lamps 10 (set_system_type 80 (new_platform 0 [] [])) in
  configure_light (-1) p = (Ok {| light_number := -1 |}, p) ∧
  set_brightness lisy_defines {| light_number := -1 |} 1%float (new_platform 0 [] [])
  = (Raise ValueError, new_platform 0 [] []).
Proof.
  apply (negative_lamp_is_accepted_and_unusable lisy_defines (-1)
           (set_number_of_lamps 10 (set_system_type 80 (new_platform 0 [] [])))).
  lia.
Defined.

(** * Further properties of the handshake *)

Lemma initialize_as_handshake D p :
  initialize D p = (handshake D ;;; modify (set_poll_task true)) p.
Proof.
  unfold initialize, handshake, bind.
  destruct (initialize_reset D p) as [[[]|e1] p1]; [|done].
  destruct (initialize_identify D p1) as [[[]|e2] p2]; [|done].
  destruct (initialize_capacities D p2) as [[[]|e3] p3]; [|done].
  by destruct (initialize_switches D p3) as [[[]|e4] p4].
Qed.

Section Stable.

(** Properties of the platform that the traffic on the connection does not
    touch. *)
Variable I : LisyHardwarePlatform → Prop.
Hypothesis I_reader : ∀ r p, I p → I (set_reader r p).
Hypothesis I_writer : ∀ w f p, I p → I (set_writer w f p).

Lemma stable_send_byte cmd payload : preserves I (send_byte cmd payload).
Proof.
  intros p Hp. destruct payload; unfold send_byte, writer_write;
    destruct (_writer_faults p) as [|[] f]; by apply I_writer.
Qed.

Lemma stable_read_byte : preserves I read_byte.
Proof.
  intros p Hp. unfold read_byte, bind, reader_readexactly_1.
  destruct (_reader p); [done|]. by apply I_reader.
Qed.

Lemma stable_read_string : preserves I read_string.
Proof.
  intros p Hp. unfold read_string, bind, reader_readuntil_zero.
  destruct (split_after_zero (_reader p)) as [[d rest]|]; by apply I_reader.
Qed.

Lemma stable_modify (f : LisyHardwarePlatform → LisyHardwarePlatform) :
  (∀ p, I p → I (f p)) → preserves I (modify f).
Proof. intros Hf p Hp. by apply Hf. Qed.

Hypothesis I_inputs : ∀ m p, I p → I (set_inputs m p).

Lemma stable_initialize_switch D a : preserves I (initialize_switch D a).
Proof.
  unfold initialize_switch.
  apply preserves_bind; [apply preserves_bytes|]. intros payload.
  apply preserves_bind; [apply stable_send_byte|]. intros _.
  apply preserves_bind; [apply stable_read_byte|]. intros state.
  case_bool_decide; [apply preserves_raise|].
  apply stable_modify. intros p. apply I_inputs.
Qed.

Lemma stable_read_switches D addrs : preserves I (for_each addrs (initialize_switch D)).
Proof. apply preserves_for_each. intros a _. apply stable_initialize_switch. Qed.

Hypothesis I_system_type : ∀ t p, I p → I (set_system_type t p).
Hypothesis I_lamps : ∀ n p, I p → I (set_number_of_lamps n p).
Hypothesis I_solenoids : ∀ n p, I p → I (set_number_of_solenoids n p).
Hypothesis I_displays : ∀ n p, I p → I (set_number_of_displays n p).

Lemma stable_handshake D : preserves I (handshake D).
Proof.
  unfold handshake.
  apply preserves_bind; [|intros _].
  { unfold initialize_reset.
    apply preserves_bind; [apply stable_send_byte|]. intros _.
    apply preserves_bind; [apply stable_read_byte|]. intros code.
    case_bool_decide; [apply preserves_raise | apply preserves_ret]. }
  apply preserves_bind; [|intros _].
  { unfold initialize_identify.
    apply preserves_bind; [apply stable_send_byte|]. intros _.
    apply preserves_bind; [apply stable_read_string|]. intros type_str.
    repeat case_bool_decide;
      first [apply preserves_raise | apply stable_modify; intros p; apply I_system_type]. }
  apply preserves_bind; [|intros _].
  { unfold initialize_capacities.
    apply preserves_bind; [apply stable_send_byte|]. intros _.
    apply preserves_bind; [apply stable_read_byte|]. intros n1.
    apply preserves_bind; [apply stable_modify; intros p; apply I_lamps|]. intros _.
    apply preserves_bind; [apply stable_send_byte|]. intros _.
    apply preserves_bind; [apply stable_read_byte|]. intros n2.
    apply preserves_bind; [apply stable_modify; intros p; apply I_solenoids|]. intros _.
    apply preserves_bind; [apply stable_send_byte|]. intros _.
    apply preserves_bind; [apply stable_read_byte|]. intros n3.
    apply stable_modify; intros p; apply I_displays. }
  unfold initialize_switches.
  apply preserves_for_each. intros row _.
  apply preserves_for_each. intros col _.
  apply stable_initialize_switch.
Qed.

End Stable.

(** A reset that the board answers with anything but 0 ends [initialize]
    with AssertionError after the reset command alone: nothing else is sent
    and nothing but the connection has changed. *)
Theorem reset_failure_aborts D p b rest :
  _reader p = b :: rest → ord b ≠ 0 →
  head (_writer_faults p) ≠ Some true →
  initialize D p
  = (Raise AssertionError,
     set_reader rest (set_writer (_writer p ++ [[GeneralReset D]])
                                 (tail (_writer_faults p)) p)).
Proof.
  intros Hr Hb Hw. unfold initialize. apply bind_Raise.
  unfold initialize_reset.
  rewrite (send_then_read _ _ p b rest Hr Hw).
  by rewrite bool_decide_eq_true_2.
Qed.

Lemma reset_failure_aborts_witness :
  initialize lisy_defines (new_platform 0 [x01; x4c] [])
  = (Raise AssertionError,
     set_reader [x4c] (set_writer [[x64]] [] (new_platform 0 [x01; x4c] []))).
Proof.
  apply (reset_failure_aborts lisy_defines (new_platform 0 [x01; x4c] []) x01 [x4c]).
  - reflexivity.
  - change (1 ≠ 0). lia.
  - simpl. discriminate.
Defined.

(** Whatever the board answers and whatever the writer does, [initialize]
    started without a poll task ends with the poll task created exactly when
    it returns without an exception: no failed handshake leaves a poll loop
    behind, and no successful one lacks it. *)
Theorem poll_task_iff_initialized D p :
  _poll_task p = false →
  (initialize D p).1 = Ok tt ↔ _poll_task (initialize D p).2 = true.
Proof.
  intros Hp. rewrite initialize_as_handshake. unfold bind.
  assert (_poll_task (handshake D p).2 = false) as Hh.
  { by apply (stable_handshake (λ p, _poll_task p = false)). }
  destruct (handshake D p) as [[[]|e] p']; simpl in *.
  - done.
  - rewrite Hh. split; discriminate.
Qed.

Lemma poll_task_iff_initialized_witness :
  (initialize lisy_defines (new_platform 0 [x00; x4c] [])).1 = Ok tt
  ↔ _poll_task (initialize lisy_defines (new_platform 0 [x00; x4c] [])).2 = true.
Proof.
  apply (poll_task_iff_initialized lisy_defines (new_platform 0 [x00; x4c] [])).
  reflexivity.
Defined.

(** The state a complete handshake leaves. *)
Lemma initialize_ok_state D id ident l s d resp faults :
  ident = LISY1 ∨ ident = LISY80 →
  Forall (λ f, f = false) faults →
  (64 ≤ length resp)%nat →
  Forall (λ b, ord b ≤ 1) (take 64 resp) →
  ∃ p4,
    initialize D (new_platform id (x00 :: ident ++ x00 :: l :: s :: d :: resp) faults)
    = (Ok tt, set_poll_task true p4) ∧
    accepts_writes p4 ∧
    _reader p4 = drop 64 resp ∧
    _inputs p4 = store_switches switch_addresses (take 64 resp) ∅ ∧
    _system_type p4 = Some (if bool_decide (ident = LISY1) then 1 else 80) ∧
    _number_of_lamps p4 = Some (ord l) ∧
    _number_of_solenoids p4 = Some (ord s) ∧
    _number_of_displays p4 = Some (ord d).
Proof.
  intros Hident Hf Hlen Hresp.
  set (p0 := new_platform id _ faults).
  destruct (initialize_prefix_ok D p0 ident l s d resp Hident eq_refl Hf)
    as (p3 & Hchain & Hp3 & Hr3 & Hw3 & Hi3 & Ht3 & Hs3 & Hl3 & Hso3 & Hd3).
  assert (Forall (λ a, 0 ≤ a < 256) switch_addresses) as Hrange.
  { apply Forall_forall. intros a Ha%switch_addresses_range. lia. }
  destruct (read_switches_ok D switch_addresses (take 64 resp) p3 (drop 64 resp))
    as (p4 & Hrun & Hp4 & Hr4 & Hw4 & Hi4 & Ht4);
    [done | by rewrite length_take, switch_addresses_length; lia | done
    | by rewrite take_drop | done |].
  pose proof (stable_read_switches
    (λ p, _system_type p = Some (if bool_decide (ident = LISY1) then 1 else 80) ∧
          _number_of_lamps p = Some (ord l) ∧
          _number_of_solenoids p = Some (ord s) ∧
          _number_of_displays p = Some (ord d))
    (λ _ _ H, H) (λ _ _ _ H, H) (λ _ _ H, H) D switch_addresses p3
    (conj Hs3 (conj Hl3 (conj Hso3 Hd3)))) as Hprofile.
  rewrite Hrun in Hprofile. cbn [snd] in Hprofile.
  destruct Hprofile as (Hs4 & Hl4 & Hso4 & Hd4).
  exists p4. split.
  - unfold initialize. rewrite Hchain. unfold bind.
    by rewrite initialize_switches_flat, Hrun.
  - rewrite Hi4, Hi3. done.
Qed.

(** A complete handshake stores what the board reported, in the order it was
    asked: the type for the identifier (1 for LISY1, 80 for LISY80), then the
    counts of lamps, of solenoids and of displays, each the value of its own
    answer byte; it consumes the 64 switch answers and leaves every later byte
    in the stream for the poll loop. *)
Theorem initialize_stores_profile D id ident l s d resp faults :
  ident = LISY1 ∨ ident = LISY80 →
  Forall (λ f, f = false) faults →
  (64 ≤ length resp)%nat →
  Forall (λ b, ord b ≤ 1) (take 64 resp) →
  let r := initialize D (new_platform id (x00 :: ident ++ x00 :: l :: s :: d :: resp)
                           faults) in
  r.1 = Ok tt ∧
  _system_type r.2 = Some (if bool_decide (ident = LISY1) then 1 else 80) ∧
  _number_of_lamps r.2 = Some (ord l) ∧
  _number_of_solenoids r.2 = Some (ord s) ∧
  _number_of_displays r.2 = Some (ord d) ∧
  _reader r.2 = drop 64 resp.
Proof.
  intros Hident Hf Hlen Hresp. cbv zeta.
  destruct (initialize_ok_state D id ident l s d resp faults Hident Hf Hlen Hresp)
    as (p4 & -> & _ & Hr4 & _ & Hs4 & Hl4 & Hso4 & Hd4).
  by cbn [fst snd].
Qed.

Lemma initialize_stores_profile_witness :
  let r := initialize lisy_defines
             (new_platform 0 (x00 :: LISY1 ++ x00 :: x0a :: x05 :: x02
                                :: replicate 64 x01 ++ [x85]) []) in
  r.1 = Ok tt ∧
  _system_type r.2 = Some 1 ∧
  _number_of_lamps r.2 = Some 10 ∧
  _number_of_solenoids r.2 = Some 5 ∧
  _number_of_displays r.2 = Some 2 ∧
  _reader r.2 = [x85].
Proof.
  apply (initialize_stores_profile lisy_defines 0 LISY1 x0a x05 x02
           (replicate 64 x01 ++ [x85]) []).
  - by left.
  - constructor.
  - simpl. lia.
  - apply (bool_decide_unpack _). by vm_compute.
Defined.

(** * Further properties of switches *)

Lemma switch_addresses_complete n :
  0 ≤ n ≤ 77 → n `mod` 10 ≤ 7 → n ∈ switch_addresses.
Proof.
  intros Hn Hcol.
  assert (Forall (λ n, n `mod` 10 ≤ 7 → n ∈ switch_addresses) (seqZ 0 78)) as H.
  { apply (bool_decide_unpack _). by vm_compute. }
  rewrite Forall_forall in H. apply H; [|done].
  apply elem_of_seqZ. lia.
Qed.

Lemma configure_switch_run n p :
  configure_switch n p
  = if bool_decide (n `mod` 10 ≤ 7 ∧ n ≤ 77) then (Ok {| switch_number := n |}, p)
    else (Raise AssertionError, p).
Proof. unfold configure_switch. repeat case_bool_decide; try done; lia. Qed.

(** [configure_switch] writes nothing.  From 0 up it accepts exactly the 64
    addresses of the switch matrix that the handshake reads; below 0 it accepts
    every number whose (floored) remainder modulo 10 is at most 7, such as -3
    and -13, and rejects the others. *)
Theorem configure_switch_accepts_matrix n p :
  (configure_switch n p).2 = p ∧
  (0 ≤ n → (configure_switch n p).1 = Ok {| switch_number := n |} ↔ n ∈ switch_addresses) ∧
  (n < 0 → (configure_switch n p).1 = Ok {| switch_number := n |} ↔ n `mod` 10 ≤ 7) ∧
  ((configure_switch n p).1 ≠ Ok {| switch_number := n |} →
     (configure_switch n p).1 = Raise AssertionError).
Proof.
  rewrite configure_switch_run. case_bool_decide as H; cbn [fst snd].
  - split; [done|]. split; [|split].
    + intros Hn. split; [|done]. intros _. apply switch_addresses_complete; lia.
    + intros Hn. split; [lia|done].
    + done.
  - split; [done|]. split; [|split].
    + intros Hn. split; [done|]. intros Hin%switch_addresses_range. lia.
    + intros Hn. split; [done|]. intros Hcol. lia.
    + done.
Qed.

(** After a complete handshake, the switch numbers from 0 up that
    [configure_switch] accepts are exactly those for which
    [get_hw_switch_states] holds a state, under the key str(number); the call
    itself sends and reads nothing. *)
Theorem configured_switches_have_state D id ident l s d resp faults n :
  ident = LISY1 ∨ ident = LISY80 →
  Forall (λ f, f = false) faults →
  (64 ≤ length resp)%nat →
  Forall (λ b, ord b ≤ 1) (take 64 resp) →
  0 ≤ n →
  let p := (initialize D (new_platform id (x00 :: ident ++ x00 :: l :: s :: d :: resp)
                            faults)).2 in
  ∃ states,
    get_hw_switch_states p = (Ok states, p) ∧
    ((configure_switch n p).1 = Ok {| switch_number := n |} ↔ is_Some (states !! str n)).
Proof.
  intros Hident Hf Hlen Hresp Hn. cbv zeta.
  destruct (initialize_ok_state D id ident l s d resp faults Hident Hf Hlen Hresp)
    as (p4 & -> & _ & _ & Hi4 & _).
  cbn [snd]. exists (_inputs p4). split; [done|].
  rewrite <- elem_of_dom, Hi4, store_switches_dom
    by (by rewrite length_take, switch_addresses_length; lia).
  rewrite dom_empty_L, (left_id_L ∅ (∪)), elem_of_list_to_set, list_elem_of_fmap.
  rewrite configure_switch_run. cbn [fst]. split.
  - case_bool_decide as Hacc; [|done]. intros _. exists n. split; [done|].
    apply switch_addresses_complete; lia.
  - intros (a & Heq & Hin). apply (inj str) in Heq. subst a.
    apply switch_addresses_range in Hin.
    by rewrite bool_decide_eq_true_2 by lia.
Qed.

Lemma configured_switches_have_state_witness :
  let p := (initialize lisy_defines
              (new_platform 0 (x00 :: LISY1 ++ x00 :: x0a :: x05 :: x02
                                 :: replicate 64 x01) [])).2 in
  ∃ states,
    get_hw_switch_states p = (Ok states, p) ∧
    ((configure_switch 42 p).1 = Ok {| switch_number := 42 |}
     ↔ is_Some (states !! str 42)).
Proof.
  apply (configured_switches_have_state lisy_defines 0 LISY1 x0a x05 x02
           (replicate 64 x01) [] 42).
  - by left.
  - constructor.
  - simpl. lia.
  - apply (bool_decide_unpack _). by vm_compute.
  - lia.
Defined.

Lemma configure_switch_accepts_matrix_witness :
  (configure_switch (-3) (new_platform 0 [] [])).1 = Ok {| switch_number := -3 |}
  ↔ (-3) `mod` 10 ≤ 7.
Proof.
  apply (proj1 (proj2 (proj2
    (configure_switch_accepts_matrix (-3) (new_platform 0 [] []))))).
  lia.
Defined.

(** * Further properties of the poll loop *)

Lemma changes_cons b bs :
  changes (b :: bs) = if bool_decide (ord b = 127) then changes bs else b :: changes bs.
Proof.
  unfold changes. rewrite filter_cons.
  destruct (decide (ord b ≠ 127)); case_bool_decide; done.
Qed.

Lemma changes_length bs : (length (changes bs) ≤ length bs)%nat.
Proof. unfold changes. apply length_filter. Qed.

(** A run of the poll loop over the status bytes [bs], one per turn: every
    turn sends one "get changed switches" query; the bytes other than 127 are
    reported to the switch controller, in order, one event each; every 127
    costs one sleep; the bytes behind [bs] stay in the stream. *)
Theorem poll_run_reports_changes D bs : ∀ p rest,
  _reader p = bs ++ rest →
  accepts_writes p →
  let r := _poll D (length bs) p in
  r.1 = Ok tt ∧
  _writer r.2 = _writer p ++ replicate (length bs) [SwitchesGetChangedSwitches D] ∧
  switch_events r.2 = switch_events p ++ (status_event (platform_id p) <$> changes bs) ∧
  sleeps r.2 = (sleeps p + (length bs - length (changes bs)))%nat ∧
  _reader r.2 = rest.
Proof.
  induction bs as [|b bs IH]; intros p rest Hr Hp; cbv zeta.
  - simpl. rewrite !app_nil_r. repeat split; try done; lia.
  - pose proof (poll_cycle_run D p b (bs ++ rest) Hr (accepts_writes_head _ Hp)) as Hc.
    cbv zeta in Hc. cbn [length _poll]. rewrite changes_cons.
    pose proof (changes_length bs) as Hlen.
    case_bool_decide as Hb.
    + rewrite (bind_Ok _ _ _ _ _ Hc).
      set (p1 := set_sleeps _ _).
      destruct (IH p1 rest eq_refl) as (Hok & Hw & He & Hs & Hrd).
      { apply (accepts_writes_set_writer
                 (_writer p ++ [[SwitchesGetChangedSwitches D]]) p Hp). }
      rewrite Hok, Hw, He, Hs, Hrd. simpl.
      repeat split; try done; try (by rewrite <- app_assoc); lia.
    + rewrite (bind_Ok _ _ _ _ _ Hc).
      set (p1 := set_inputs _ _).
      destruct (IH p1 rest eq_refl) as (Hok & Hw & He & Hs & Hrd).
      { apply (accepts_writes_set_writer
                 (_writer p ++ [[SwitchesGetChangedSwitches D]]) p Hp). }
      rewrite Hok, Hw, He, Hs, Hrd. simpl.
      repeat split; try done; try (by rewrite <- app_assoc); lia.
Qed.

Lemma poll_run_reports_changes_witness :
  let r := _poll lisy_defines 3 (new_platform 7 [x85; x7f; x05; x01] []) in
  r.1 = Ok tt ∧
  _writer r.2 = [[x29]; [x29]; [x29]] ∧
  switch_events r.2 = [("5"%string, 1, 7%nat); ("5"%string, 0, 7%nat)] ∧
  sleeps r.2 = 1%nat ∧
  _reader r.2 = [x01].
Proof.
  apply (poll_run_reports_changes lisy_defines [x85; x7f; x05]
           (new_platform 7 [x85; x7f; x05; x01] []) [x01]).
  - reflexivity.
  - constructor.
Defined.

(** When the stream is exhausted, a poll turn still sends its query, then
    raises IncompleteReadError: no event, no sleep, and the cache as it was. *)
Theorem poll_at_end_of_stream D n p :
  _reader p = [] →
  head (_writer_faults p) ≠ Some true →
  _poll D (S n) p
  = (Raise IncompleteReadError,
     set_writer (_writer p ++ [[SwitchesGetChangedSwitches D]])
                (tail (_writer_faults p)) p).
Proof.
  intros Hr Hw. cbn [_poll]. apply bind_Raise. unfold _poll_cycle.
  rewrite (bind_Ok _ _ _ _ _ (send_byte_accepted _ None p Hw)).
  apply bind_Raise. unfold read_byte. apply bind_Raise.
  unfold reader_readexactly_1. simpl. by rewrite Hr.
Qed.

Lemma poll_at_end_of_stream_witness :
  _poll lisy_defines 2 (new_platform 0 [] [])
  = (Raise IncompleteReadError, set_writer [[x29]] [] (new_platform 0 [] [])).
Proof.
  apply (poll_at_end_of_stream lisy_defines 1 (new_platform 0 [] [])).
  - reflexivity.
  - simpl. discriminate.
Defined.

Lemma last_state_snoc a a' st id events :
  last_state a (events ++ [(a', st, id)])
  = if bool_decide (a' = a) then Some st else last_state a events.
Proof.
  unfold last_state. rewrite filter_app, filter_cons, filter_nil. simpl.
  destruct (decide (a' = a)) as [Ha|Ha].
  - rewrite bool_decide_eq_true_2 by done. by rewrite last_snoc.
  - rewrite bool_decide_eq_false_2 by done. by rewrite app_nil_r.
Qed.

Lemma poll_cycle_follows_events D :
  preserves cache_follows_events (_poll_cycle D).
Proof.
  unfold _poll_cycle.
  apply preserves_bind; [|intros _].
  { intros p Hp. unfold send_byte, writer_write.
    by destruct (_writer_faults p) as [|[] f]. }
  apply preserves_bind; [|intros status].
  { intros p Hp. unfold read_byte, bind, reader_readexactly_1.
    by destruct (_reader p). }
  case_bool_decide; [by intros p Hp|].
  intros p Hp a st. simpl. rewrite last_state_snoc.
  case_bool_decide as Ha.
  - intros [= <-]. subst a. by rewrite lookup_insert_eq.
  - intros Hst. rewrite lookup_insert_ne by done. by apply Hp.
Qed.

(** Across any number of poll turns, whatever the board sends and whatever
    the writer does, the cache keeps agreeing with what was reported: for
    every address, its entry is the state of the last event reported for it. *)
Theorem cache_follows_reported_events D turns p :
  cache_follows_events p → cache_follows_events (_poll D turns p).2.
Proof.
  revert p. induction turns as [|n IH]; intros p Hp; [done|].
  cbn [_poll]. unfold bind.
  pose proof (poll_cycle_follows_events D p Hp) as Hc.
  destruct (_poll_cycle D p) as [[[]|e] p1]; [by apply IH|done].
Qed.

Lemma cache_follows_reported_events_witness :
  cache_follows_events
    (_poll lisy_defines 3 (new_platform 7 [x85; x7f; x05; x01] [])).2.
Proof.
  apply (cache_follows_reported_events lisy_defines 3
           (new_platform 7 [x85; x7f; x05; x01] [])).
  intros a st H. discriminate H.
Defined.

(** * Further properties of configuration *)



(** Before the handshake the counts are [None]: a comparison with them raises
    TypeError, but only when it is reached.  On a platform fresh from
    [__init__], [configure_light] accepts every number up to 1 and raises
    TypeError from 2 up, and [configure_segment_display] accepts every number
    up to 0 and raises TypeError from 1 up; neither writes anything. *)
Theorem configure_before_handshake id incoming faults n :
  let p := new_platform id incoming faults in
  (n ≤ 1 → configure_light n p = (Ok {| light_number := n |}, p)) ∧
  (2 ≤ n → configure_light n p = (Raise TypeError, p)) ∧
  (n ≤ 0 → configure_segment_display n p = (Ok {| display_number := n |}, p)) ∧
  (1 ≤ n → configure_segment_display n p = (Raise TypeError, p)).
Proof.
  cbv zeta. unfold configure_light, configure_segment_display, bind, get, and_then.
  simpl. repeat split; intros Hn.
  - by rewrite (bool_decide_eq_false_2 (1 < n)) by lia.
  - by rewrite (bool_decide_eq_true_2 (1 < n)) by lia.
  - by rewrite (bool_decide_eq_false_2 (0 < n)) by lia.
  - by rewrite (bool_decide_eq_true_2 (0 < n)) by lia.
Qed.

Lemma configure_before_handshake_witness :
  configure_light 2 (new_platform 0 [] []) = (Raise TypeError, new_platform 0 [] []).
Proof.
  apply (proj1 (proj2 (configure_before_handshake 0 [] [] 2))). lia.
Defined.



